(** * EasyCSS Enhanced (src/Easy.js): a shallow embedding

    The class [EasyCSSEnhanced] wires DOM listeners onto elements found by
    attribute selectors and broadcasts lifecycle events through the host
    document ([on]/[off]/[emit] are thin wrappers around the document's
    [addEventListener]/[removeEventListener]/[dispatchEvent]).

    The embedding threads an explicit [World] (document tree, listener
    lists, localStorage, timers, the framework instance's fields) through
    a state-and-exception monad.  The browser primitives the source calls
    are modelled after the DOM standard:
      - adding a listener whose (type, callback) pair is already present is
        a no-op; callbacks are compared by object identity, and every
        evaluation of an arrow function is a new object;
      - dispatch iterates over a copy of the listener list taken when the
        dispatch starts, skips listeners removed in the meantime, reports
        (rather than propagates) an exception thrown by a listener, and
        stops once a listener has set the event's stop-immediate-propagation
        flag;
      - [NodeList.forEach] calls its callback element by element and lets an
        exception escape.

    What is modelled of the class: the constructor's fields, the theme
    methods, the modal, dropdown, toast, navbar-toggle and animation-trigger
    initialisers with the methods they call, and the event system.  The
    browser delivers native events (click, keydown) to element listeners
    outside this model; the listeners are recorded, and the bodies the
    statements need are given as functions ([navbarToggleClick],
    [modalTriggerClick], [toastTriggerClick]).  Constant selector strings
    appear parsed ([Selector]); a selector or a piece of markup that the
    source builds from a run-time string is handed to the browser's parser.
    Layout, the clock, the parsers ([JSON.parse], the CSS and HTML parsers)
    and the code of page-supplied handlers are read from a [Host] record. *)

From stdpp Require Import base strings list gmap pretty.
From Stdlib Require Import ZArith Lia Ascii.

Open Scope string_scope.
Open Scope list_scope.

(** ** JavaScript values and plain objects *)

(** The toast configuration object, as destructured by [showToast]: a
    missing (undefined) property is [None]. *)
Record ToastConfig := {
  cfg_type : option string;
  cfg_title : option string;
  cfg_message : option string;
  cfg_duration : option Z;
  cfg_persistent : option bool;
}.

Inductive Value :=
| VUndefined
| VNull
| VBool (b : bool)
| VNum (n : Z)
| VStr (s : string)
| VElement (id : nat)
| VConfig (c : ToastConfig)
| VThis.

#[global] Instance ToastConfig_eq_dec : EqDecision ToastConfig.
Proof. solve_decision. Defined.
#[global] Instance Value_eq_dec : EqDecision Value.
Proof. solve_decision. Defined.

(** A plain object used as a string-keyed map (an event payload). *)
Abbreviation Obj := (gmap string Value).

(** ** Errors *)

Inductive Error :=
| TypeError (msg : string)
| SyntaxError (msg : string)
| RangeError (msg : string)
| PageError (msg : string).

#[global] Instance Error_eq_dec : EqDecision Error.
Proof. solve_decision. Defined.

(** The errors the engine raises in the modelled code. *)
Definition navbar_null_error : Error :=
  TypeError "Cannot read properties of null (reading 'querySelector')".

Definition matchMedia_error : Error :=
  TypeError "window.matchMedia is not a function".

Definition stack_error : Error :=
  RangeError "Maximum call stack size exceeded".

(** ** The document tree *)

Record Element := {
  e_id : nat;
  e_tag : string;
  e_parent : option nat;
  e_attrs : list (string * string);
  e_classes : list string;
  e_text : string;
  e_style : list (string * string);
}.

#[global] Instance Element_eq_dec : EqDecision Element.
Proof. solve_decision. Defined.

(** The selectors the source uses, parsed. *)
Inductive Selector :=
| STag (t : string)                      (* button *)
| SClass (c : string)                    (* .navbar *)
| SHasAttr (a : string)                  (* [data-modal] *)
| SAttrEq (a v : string)                 (* [data-modal="id"] *)
| SClassContains (s : string)            (* [class*="animate-"] *)
| SAnd (s1 s2 : Selector)                (* [data-dropdown].active *)
| SOr (s1 s2 : Selector)                 (* a, b *)
| SNot (s : Selector).                   (* :not(...) *)

Fixpoint assoc (k : string) (l : list (string * string)) : option string :=
  match l with
  | [] => None
  | (k', v) :: l' => if decide (k' = k) then Some v else assoc k l'
  end.

Fixpoint assoc_set (k v : string) (l : list (string * string))
  : list (string * string) :=
  match l with
  | [] => [(k, v)]
  | (k', v') :: l' =>
      if decide (k' = k) then (k, v) :: l' else (k', v') :: assoc_set k v l'
  end.

Fixpoint substringb (needle hay : string) : bool :=
  match hay with
  | EmptyString => String.prefix needle EmptyString
  | String _ hay' => String.prefix needle hay || substringb needle hay'
  end.

Fixpoint matches (s : Selector) (e : Element) : bool :=
  match s with
  | STag t => bool_decide (e_tag e = t)
  | SClass c => bool_decide (c ∈ e_classes e)
  | SHasAttr a => bool_decide (is_Some (assoc a (e_attrs e)))
  | SAttrEq a v => bool_decide (assoc a (e_attrs e) = Some v)
  | SClassContains n => existsb (substringb n) (e_classes e)
  | SAnd s1 s2 => matches s1 e && matches s2 e
  | SOr s1 s2 => matches s1 e || matches s2 e
  | SNot s1 => negb (matches s1 e)
  end.

Definition Dom := list Element.

Definition getElement (id : nat) (d : Dom) : option Element :=
  head (filter (fun e => e_id e = id) d).

(** [ancestors fuel d id]: the parent chain of [id], nearest first. *)
Fixpoint ancestors (fuel : nat) (d : Dom) (id : nat) : list nat :=
  match fuel with
  | O => []
  | S fuel' =>
      match getElement id d with
      | Some e =>
          match e_parent e with
          | Some p => p :: ancestors fuel' d p
          | None => []
          end
      | None => []
      end
  end.

Definition is_descendant (d : Dom) (anc id : nat) : bool :=
  bool_decide (anc ∈ ancestors (length d) d id).

(** [document.querySelectorAll(s)], in document order. *)
Definition querySelectorAll (s : Selector) (d : Dom) : list nat :=
  e_id <$> filter (fun e => matches s e = true) d.

Definition querySelector (s : Selector) (d : Dom) : option nat :=
  head (querySelectorAll s d).

(** [root.querySelectorAll(s)]: matching descendants of [root]. *)
Definition querySelectorAllIn (root : nat) (s : Selector) (d : Dom) : list nat :=
  e_id <$> filter (fun e => matches s e = true
                            ∧ is_descendant d root (e_id e) = true) d.

Definition querySelectorIn (root : nat) (s : Selector) (d : Dom) : option nat :=
  head (querySelectorAllIn root s d).

Definition matches_id (s : Selector) (d : Dom) (id : nat) : bool :=
  match getElement id d with
  | Some e => matches s e
  | None => false
  end.

(** [el.closest(s)]: the element itself or its nearest matching ancestor. *)
Definition closest (s : Selector) (d : Dom) (id : nat) : option nat :=
  head (filter (fun i => matches_id s d i = true)
               (id :: ancestors (length d) d id)).

Definition update_element (id : nat) (f : Element -> Element) (d : Dom) : Dom :=
  (fun e => if decide (e_id e = id) then f e else e) <$> d.

Definition with_classes (f : list string -> list string) (e : Element) : Element :=
  {| e_id := e_id e; e_tag := e_tag e; e_parent := e_parent e;
     e_attrs := e_attrs e; e_classes := f (e_classes e);
     e_text := e_text e; e_style := e_style e |}.

Definition with_attr (a v : string) (e : Element) : Element :=
  {| e_id := e_id e; e_tag := e_tag e; e_parent := e_parent e;
     e_attrs := assoc_set a v (e_attrs e); e_classes := e_classes e;
     e_text := e_text e; e_style := e_style e |}.

Definition with_text (t : string) (e : Element) : Element :=
  {| e_id := e_id e; e_tag := e_tag e; e_parent := e_parent e;
     e_attrs := e_attrs e; e_classes := e_classes e;
     e_text := t; e_style := e_style e |}.

Definition with_style (p v : string) (e : Element) : Element :=
  {| e_id := e_id e; e_tag := e_tag e; e_parent := e_parent e;
     e_attrs := e_attrs e; e_classes := e_classes e;
     e_text := e_text e; e_style := assoc_set p v (e_style e) |}.

(** [classList.add] / [remove] / [toggle] on a token list. *)
Definition class_add (c : string) (cs : list string) : list string :=
  if decide (c ∈ cs) then cs else cs ++ [c].

Definition class_remove (c : string) (cs : list string) : list string :=
  filter (fun c' => c' ≠ c) cs.

Definition class_toggle (c : string) (cs : list string) : list string :=
  if decide (c ∈ cs) then class_remove c cs else cs ++ [c].

(** ** Strings built at run time *)

Definition quote : string := String "034"%char "".
Definition newline : string := String "010"%char "".

Definition is_space (c : ascii) : bool :=
  bool_decide (c ∈ [" "; "009"; "010"; "012"; "013"]%char).

Fixpoint split_spaces (cur s : string) : list string :=
  match s with
  | EmptyString => if decide (cur = "") then [] else [cur]
  | String c s' =>
      if is_space c
      then (if decide (cur = "") then [] else [cur]) ++ split_spaces "" s'
      else split_spaces (cur +:+ String c "") s'
  end.

(** The class list that [el.className = s] leaves: the tokens of [s]
    between ASCII whitespace, each kept once, in order of first occurrence. *)
Definition class_tokens (s : string) : list string :=
  foldl (fun cs c => class_add c cs) [] (split_spaces "" s).

Definition ascii_lower (c : ascii) : ascii :=
  let n := nat_of_ascii c in
  if bool_decide (65 <= n <= 90) then ascii_of_nat (n + 32) else c.

Fixpoint lower (s : string) : string :=
  match s with
  | EmptyString => EmptyString
  | String c s' => String (ascii_lower c) (lower s')
  end.

(** The characters that stand for themselves inside a double-quoted CSS
    string: all but the quote, the backslash, the line breaks and NUL. *)
Definition css_string_char (c : ascii) : bool :=
  negb (bool_decide (c ∈ ["034"; "092"; "010"; "012"; "013"; "000"]%char)).

Fixpoint css_plain (s : string) : bool :=
  match s with
  | EmptyString => true
  | String c s' => css_string_char c && css_plain s'
  end.

(** ** Listeners, events and host state *)

(** The closures the framework attaches to elements.  [fn] is the identity
    of the function object: every evaluation of an arrow function yields a
    new one. *)
Inductive ElCallback :=
| ThemeToggleClick (fn : nat)
| ModalTriggerClick (fn trigger : nat)
| ModalCloseClick (fn modal : nat)
| ModalBackdropClick (fn modal : nat)
| HandleTabKey (fn first last : nat)
| DropdownTriggerClick (fn dropdown : nat)
| DropdownKeydown (fn dropdown : nat)
| ToastTriggerClick (fn trigger : nat)
| ToastCloseClick (fn toast : nat)
| NavbarToggleClick (fn toggle : nat).

#[global] Instance ElCallback_eq_dec : EqDecision ElCallback.
Proof. solve_decision. Defined.

Definition callback_fn (c : ElCallback) : nat :=
  match c with
  | ThemeToggleClick fn | ModalTriggerClick fn _ | ModalCloseClick fn _
  | ModalBackdropClick fn _ | HandleTabKey fn _ _ | DropdownTriggerClick fn _
  | DropdownKeydown fn _ | ToastTriggerClick fn _ | ToastCloseClick fn _
  | NavbarToggleClick fn _ => fn
  end.

Record ElListener := {
  el_target : nat;
  el_type : string;
  el_callback : ElCallback;
}.

#[global] Instance ElListener_eq_dec : EqDecision ElListener.
Proof. solve_decision. Defined.

(** Callbacks registered on [document]: handlers supplied by the page
    ([Page h], the function object number [h]) and the framework's own
    closures. *)
Inductive DocCallback :=
| Page (h : nat)
| RemoveListener (fn container : nat) (handleTabKey : ElCallback)
| ModalEscape (fn modal : nat)
| DropdownOutside (fn dropdown : nat).

#[global] Instance DocCallback_eq_dec : EqDecision DocCallback.
Proof. solve_decision. Defined.

(** An entry of the document's event listener list; [dl_id] identifies the
    entry itself (an entry that was removed and added again is a new one). *)
Record DocListener := {
  dl_id : nat;
  dl_type : string;
  dl_callback : DocCallback;
}.

(** A dispatched [CustomEvent]. *)
Record Event := {
  ev_id : nat;
  ev_type : string;
  ev_detail : Obj;
}.

#[global] Instance Event_eq_dec : EqDecision Event.
Proof. solve_decision. Defined.

(** One call of a document listener with an event. *)
Record Invocation := {
  inv_callback : DocCallback;
  inv_event : Event;
}.

(** What a page handler does with the bus, and with the event it was
    called with, when it is called. *)
Inductive Action :=
| AOn (name : string) (h : nat)
| AOff (name : string) (h : nat)
| AEmit (name : string) (data : option Obj)
| AStop                                   (* e.stopImmediatePropagation() *)
| AThrow (e : Error).

Inductive StorageOp :=
| GetItem (key : string)
| SetItem (key value : string).

Inductive TimerTask :=
| HideToast (toast : nat)
| RemoveToast (toast : nat).

#[global] Instance TimerTask_eq_dec : EqDecision TimerTask.
Proof. solve_decision. Defined.

Record Rect := {
  r_top : Z; r_left : Z; r_bottom : Z; r_right : Z;
  r_width : Z; r_height : Z;
}.

(** What [JSON.parse] makes of a text: a syntax error, the value null, or
    any other value, seen through the properties [showToast] reads off it. *)
Inductive Json :=
| JInvalid
| JNull
| JValue (config : ToastConfig).

(** An element made by the HTML parser from a piece of markup.  A parsed
    fragment is the list of its elements in document order; [p_parent] is
    the position of the parent in that list, or [None] for an element at
    the top of the fragment. *)
Record Parsed := {
  p_parent : option nat;
  p_tag : string;
  p_attrs : list (string * string);
  p_classes : list string;
  p_text : string;
}.

(** The parts of the browser and of the page that the framework reads but
    never changes. *)
Record Host := {
  handler_code : nat -> Event -> list Action;
  clock : nat -> Z;                       (* successive Date.now() readings *)
  has_IntersectionObserver : bool;        (* 'IntersectionObserver' in window *)
  matchMedia : option (string -> bool);   (* window.matchMedia, if defined *)
  rect : nat -> Rect;                     (* getBoundingClientRect *)
  innerWidth : Z;
  innerHeight : Z;
  JSON_parse : string -> Json;
  CSS_parse : string -> option Selector;  (* None: not a valid selector *)
  innerHTML_parse : string -> list Parsed;
  Object_prototype_text : string -> option string;
    (* String(Object.prototype[k]) when that member is defined and truthy *)
}.

Record World := {
  host : Host;                          (* browser and page, read only *)
  doc : Dom;                            (* elements, in document order *)
  activeElement : option nat;           (* document.activeElement *)
  el_listeners : list ElListener;       (* listeners on elements *)
  doc_listeners : list DocListener;     (* the document's listener list *)
  media_listeners : list nat;           (* 'change' on the media query *)
  next_id : nat;                        (* next unused object identity *)
  clock_reads : nat;                    (* calls of Date.now() so far *)
  storage : gmap string string;         (* localStorage *)
  storage_log : list StorageOp;         (* calls made to localStorage *)
  timers : list (Z * TimerTask);        (* setTimeout: delay and task *)
  frames : list nat;                    (* requestAnimationFrame: toasts *)
  observed : list (nat * nat);          (* (observer, element) pairs *)
  reported : list Error;                (* exceptions the browser reported *)
  trace : list Invocation;              (* calls of document listeners *)
  this_components : gmap string Value;  (* this.components *)
  this_observers : gmap string nat;     (* this.observers *)
  this_theme : string;                  (* this.theme *)
  this_direction : string;              (* this.direction *)
  stopped : list nat;                   (* events whose stop-immediate-
                                           propagation flag is set *)
}.

(** Field updates. *)

Definition set_doc (f : Dom -> Dom) (w : World) : World :=
  {| host := host w; doc := f (doc w); activeElement := activeElement w;
     el_listeners := el_listeners w; doc_listeners := doc_listeners w;
     media_listeners := media_listeners w; next_id := next_id w;
     clock_reads := clock_reads w; storage := storage w;
     storage_log := storage_log w; timers := timers w; frames := frames w;
     observed := observed w; reported := reported w; trace := trace w;
     this_components := this_components w;
     this_observers := this_observers w; this_theme := this_theme w;
     this_direction := this_direction w;
     stopped := stopped w |}.

Definition set_activeElement (a : option nat) (w : World) : World :=
  {| host := host w; doc := doc w; activeElement := a;
     el_listeners := el_listeners w; doc_listeners := doc_listeners w;
     media_listeners := media_listeners w; next_id := next_id w;
     clock_reads := clock_reads w; storage := storage w;
     storage_log := storage_log w; timers := timers w; frames := frames w;
     observed := observed w; reported := reported w; trace := trace w;
     this_components := this_components w;
     this_observers := this_observers w; this_theme := this_theme w;
     this_direction := this_direction w;
     stopped := stopped w |}.

Definition set_el_listeners (f : list ElListener -> list ElListener)
    (w : World) : World :=
  {| host := host w; doc := doc w; activeElement := activeElement w;
     el_listeners := f (el_listeners w); doc_listeners := doc_listeners w;
     media_listeners := media_listeners w; next_id := next_id w;
     clock_reads := clock_reads w; storage := storage w;
     storage_log := storage_log w; timers := timers w; frames := frames w;
     observed := observed w; reported := reported w; trace := trace w;
     this_components := this_components w;
     this_observers := this_observers w; this_theme := this_theme w;
     this_direction := this_direction w;
     stopped := stopped w |}.

Definition set_doc_listeners (f : list DocListener -> list DocListener)
    (w : World) : World :=
  {| host := host w; doc := doc w; activeElement := activeElement w;
     el_listeners := el_listeners w; doc_listeners := f (doc_listeners w);
     media_listeners := media_listeners w; next_id := next_id w;
     clock_reads := clock_reads w; storage := storage w;
     storage_log := storage_log w; timers := timers w; frames := frames w;
     observed := observed w; reported := reported w; trace := trace w;
     this_components := this_components w;
     this_observers := this_observers w; this_theme := this_theme w;
     this_direction := this_direction w;
     stopped := stopped w |}.

Definition set_media_listeners (f : list nat -> list nat)
    (w : World) : World :=
  {| host := host w; doc := doc w; activeElement := activeElement w;
     el_listeners := el_listeners w; doc_listeners := doc_listeners w;
     media_listeners := f (media_listeners w); next_id := next_id w;
     clock_reads := clock_reads w; storage := storage w;
     storage_log := storage_log w; timers := timers w; frames := frames w;
     observed := observed w; reported := reported w; trace := trace w;
     this_components := this_components w;
     this_observers := this_observers w; this_theme := this_theme w;
     this_direction := this_direction w;
     stopped := stopped w |}.

Definition set_next_id (n : nat) (w : World) : World :=
  {| host := host w; doc := doc w; activeElement := activeElement w;
     el_listeners := el_listeners w; doc_listeners := doc_listeners w;
     media_listeners := media_listeners w; next_id := n;
     clock_reads := clock_reads w; storage := storage w;
     storage_log := storage_log w; timers := timers w; frames := frames w;
     observed := observed w; reported := reported w; trace := trace w;
     this_components := this_components w;
     this_observers := this_observers w; this_theme := this_theme w;
     this_direction := this_direction w;
     stopped := stopped w |}.

Definition set_clock_reads (n : nat) (w : World) : World :=
  {| host := host w; doc := doc w; activeElement := activeElement w;
     el_listeners := el_listeners w; doc_listeners := doc_listeners w;
     media_listeners := media_listeners w; next_id := next_id w;
     clock_reads := n; storage := storage w; storage_log := storage_log w;
     timers := timers w; frames := frames w; observed := observed w;
     reported := reported w; trace := trace w;
     this_components := this_components w;
     this_observers := this_observers w; this_theme := this_theme w;
     this_direction := this_direction w;
     stopped := stopped w |}.

Definition set_storage (s : gmap string string) (l : list StorageOp)
    (w : World) : World :=
  {| host := host w; doc := doc w; activeElement := activeElement w;
     el_listeners := el_listeners w; doc_listeners := doc_listeners w;
     media_listeners := media_listeners w; next_id := next_id w;
     clock_reads := clock_reads w; storage := s; storage_log := l;
     timers := timers w; frames := frames w; observed := observed w;
     reported := reported w; trace := trace w;
     this_components := this_components w;
     this_observers := this_observers w; this_theme := this_theme w;
     this_direction := this_direction w;
     stopped := stopped w |}.

Definition set_timers (f : list (Z * TimerTask) -> list (Z * TimerTask))
    (w : World) : World :=
  {| host := host w; doc := doc w; activeElement := activeElement w;
     el_listeners := el_listeners w; doc_listeners := doc_listeners w;
     media_listeners := media_listeners w; next_id := next_id w;
     clock_reads := clock_reads w; storage := storage w;
     storage_log := storage_log w; timers := f (timers w);
     frames := frames w; observed := observed w; reported := reported w;
     trace := trace w; this_components := this_components w;
     this_observers := this_observers w; this_theme := this_theme w;
     this_direction := this_direction w;
     stopped := stopped w |}.

Definition set_frames (f : list nat -> list nat) (w : World) : World :=
  {| host := host w; doc := doc w; activeElement := activeElement w;
     el_listeners := el_listeners w; doc_listeners := doc_listeners w;
     media_listeners := media_listeners w; next_id := next_id w;
     clock_reads := clock_reads w; storage := storage w;
     storage_log := storage_log w; timers := timers w;
     frames := f (frames w); observed := observed w; reported := reported w;
     trace := trace w; this_components := this_components w;
     this_observers := this_observers w; this_theme := this_theme w;
     this_direction := this_direction w;
     stopped := stopped w |}.

Definition set_observed (f : list (nat * nat) -> list (nat * nat))
    (w : World) : World :=
  {| host := host w; doc := doc w; activeElement := activeElement w;
     el_listeners := el_listeners w; doc_listeners := doc_listeners w;
     media_listeners := media_listeners w; next_id := next_id w;
     clock_reads := clock_reads w; storage := storage w;
     storage_log := storage_log w; timers := timers w; frames := frames w;
     observed := f (observed w); reported := reported w; trace := trace w;
     this_components := this_components w;
     this_observers := this_observers w; this_theme := this_theme w;
     this_direction := this_direction w;
     stopped := stopped w |}.

Definition set_reported (f : list Error -> list Error) (w : World) : World :=
  {| host := host w; doc := doc w; activeElement := activeElement w;
     el_listeners := el_listeners w; doc_listeners := doc_listeners w;
     media_listeners := media_listeners w; next_id := next_id w;
     clock_reads := clock_reads w; storage := storage w;
     storage_log := storage_log w; timers := timers w; frames := frames w;
     observed := observed w; reported := f (reported w); trace := trace w;
     this_components := this_components w;
     this_observers := this_observers w; this_theme := this_theme w;
     this_direction := this_direction w;
     stopped := stopped w |}.

Definition set_trace (f : list Invocation -> list Invocation)
    (w : World) : World :=
  {| host := host w; doc := doc w; activeElement := activeElement w;
     el_listeners := el_listeners w; doc_listeners := doc_listeners w;
     media_listeners := media_listeners w; next_id := next_id w;
     clock_reads := clock_reads w; storage := storage w;
     storage_log := storage_log w; timers := timers w; frames := frames w;
     observed := observed w; reported := reported w; trace := f (trace w);
     this_components := this_components w;
     this_observers := this_observers w; this_theme := this_theme w;
     this_direction := this_direction w;
     stopped := stopped w |}.

Definition set_this_components (f : gmap string Value -> gmap string Value)
    (w : World) : World :=
  {| host := host w; doc := doc w; activeElement := activeElement w;
     el_listeners := el_listeners w; doc_listeners := doc_listeners w;
     media_listeners := media_listeners w; next_id := next_id w;
     clock_reads := clock_reads w; storage := storage w;
     storage_log := storage_log w; timers := timers w; frames := frames w;
     observed := observed w; reported := reported w; trace := trace w;
     this_components := f (this_components w);
     this_observers := this_observers w; this_theme := this_theme w;
     this_direction := this_direction w;
     stopped := stopped w |}.

Definition set_this_observers (f : gmap string nat -> gmap string nat)
    (w : World) : World :=
  {| host := host w; doc := doc w; activeElement := activeElement w;
     el_listeners := el_listeners w; doc_listeners := doc_listeners w;
     media_listeners := media_listeners w; next_id := next_id w;
     clock_reads := clock_reads w; storage := storage w;
     storage_log := storage_log w; timers := timers w; frames := frames w;
     observed := observed w; reported := reported w; trace := trace w;
     this_components := this_components w;
     this_observers := f (this_observers w); this_theme := this_theme w;
     this_direction := this_direction w;
     stopped := stopped w |}.

Definition set_this_theme (t : string) (w : World) : World :=
  {| host := host w; doc := doc w; activeElement := activeElement w;
     el_listeners := el_listeners w; doc_listeners := doc_listeners w;
     media_listeners := media_listeners w; next_id := next_id w;
     clock_reads := clock_reads w; storage := storage w;
     storage_log := storage_log w; timers := timers w; frames := frames w;
     observed := observed w; reported := reported w; trace := trace w;
     this_components := this_components w;
     this_observers := this_observers w; this_theme := t;
     this_direction := this_direction w;
     stopped := stopped w |}.

Definition set_this_direction (d : string) (w : World) : World :=
  {| host := host w; doc := doc w; activeElement := activeElement w;
     el_listeners := el_listeners w; doc_listeners := doc_listeners w;
     media_listeners := media_listeners w; next_id := next_id w;
     clock_reads := clock_reads w; storage := storage w;
     storage_log := storage_log w; timers := timers w; frames := frames w;
     observed := observed w; reported := reported w; trace := trace w;
     this_components := this_components w;
     this_observers := this_observers w; this_theme := this_theme w;
     this_direction := d; stopped := stopped w |}.

Definition set_stopped (f : list nat -> list nat) (w : World) : World :=
  {| host := host w; doc := doc w; activeElement := activeElement w;
     el_listeners := el_listeners w; doc_listeners := doc_listeners w;
     media_listeners := media_listeners w; next_id := next_id w;
     clock_reads := clock_reads w; storage := storage w;
     storage_log := storage_log w; timers := timers w; frames := frames w;
     observed := observed w; reported := reported w; trace := trace w;
     this_components := this_components w;
     this_observers := this_observers w; this_theme := this_theme w;
     this_direction := this_direction w; stopped := f (stopped w) |}.

(** ** Computations: state plus exceptions *)

Inductive Result (A : Type) :=
| Ok (a : A) (w : World)
| Throw (e : Error) (w : World).
Arguments Ok {A} a w.
Arguments Throw {A} e w.

Definition M (A : Type) : Type := World -> Result A.

Definition ret {A} (a : A) : M A := fun w => Ok a w.
Definition throw {A} (e : Error) : M A := fun w => Throw e w.
Definition bind {A B} (c : M A) (k : A -> M B) : M B :=
  fun w => match c w with
           | Ok a w' => k a w'
           | Throw e w' => Throw e w'
           end.

Notation "x <- c ;; k" := (bind c (fun x => k))
  (at level 100, c at next level, right associativity).
Notation "c ;; k" := (bind c (fun _ => k))
  (at level 100, right associativity).

Definition get {A} (f : World -> A) : M A := fun w => Ok (f w) w.
Definition modify (f : World -> World) : M unit := fun w => Ok tt (f w).

(** The world a computation leaves behind, whether it returned or threw. *)
Definition world_of {A} (r : Result A) : World :=
  match r with Ok _ w => w | Throw _ w => w end.

(** [list.forEach(f)]: calls [f] on each item in order; an exception thrown
    by [f] ends the loop and escapes to the caller. *)
Fixpoint forEach {A} (f : A -> M unit) (l : list A) : M unit :=
  match l with
  | [] => ret tt
  | x :: l' => f x ;; forEach f l'
  end.

(** A new object identity. *)
Definition fresh : M nat :=
  fun w => Ok (next_id w) (set_next_id (S (next_id w)) w).

(** [Date.now()] *)
Definition Date_now : M Z :=
  fun w => Ok (clock (host w) (clock_reads w))
              (set_clock_reads (S (clock_reads w)) w).

(** ** Event targets *)

Fixpoint remove_first {A} (P : A -> Prop) `{!∀ x, Decision (P x)}
    (l : list A) : list A :=
  match l with
  | [] => []
  | x :: l' => if decide (P x) then l' else x :: remove_first P l'
  end.

(** [element.addEventListener(type, callback)] *)
Definition addEventListener (target : nat) (type : string)
    (callback : ElCallback) : M unit :=
  modify (set_el_listeners (fun ls =>
    let l := {| el_target := target; el_type := type;
                el_callback := callback |} in
    if decide (l ∈ ls) then ls else ls ++ [l])).

(** [element.removeEventListener(type, callback)] *)
Definition removeEventListener (target : nat) (type : string)
    (callback : ElCallback) : M unit :=
  modify (set_el_listeners (remove_first (fun l =>
    l = {| el_target := target; el_type := type;
           el_callback := callback |}))).

Definition listens (type : string) (callback : DocCallback)
    (l : DocListener) : Prop :=
  dl_type l = type ∧ dl_callback l = callback.

#[global] Instance listens_dec type callback l :
  Decision (listens type callback l).
Proof. unfold listens. apply _. Defined.

(** [document.addEventListener(type, callback)] *)
Definition document_addEventListener (type : string)
    (callback : DocCallback) : M unit :=
  fun w =>
    if decide (Exists (listens type callback) (doc_listeners w))
    then Ok tt w
    else (id <- fresh ;;
          modify (set_doc_listeners (fun ls =>
            ls ++ [{| dl_id := id; dl_type := type;
                      dl_callback := callback |}]))) w.

(** [document.removeEventListener(type, callback)] *)
Definition document_removeEventListener (type : string)
    (callback : DocCallback) : M unit :=
  modify (set_doc_listeners (remove_first (listens type callback))).

(** The browser's "report the exception". *)
Definition report (e : Error) : World -> World :=
  set_reported (fun r => r ++ [e]).

Definition record_call (callback : DocCallback) (ev : Event) : World -> World :=
  set_trace (fun t => t ++ [{| inv_callback := callback; inv_event := ev |}]).

Definition subscribers (type : string) (w : World) : list DocListener :=
  filter (fun l => dl_type l = type) (doc_listeners w).

Section Dispatch.
(** How a callback runs when the browser calls it. *)
Variable call : DocCallback -> Event -> M unit.

(** One step of the listener loop: a listener that has been removed since
    the dispatch began is skipped; an exception is reported and the loop
    goes on. *)
Definition call_listener (ev : Event) (l : DocListener) (w : World) : World :=
  if decide (dl_id l ∈ dl_id <$> doc_listeners w) then
    match call (dl_callback l) ev (record_call (dl_callback l) ev w) with
    | Ok _ w' => w'
    | Throw e w' => report e w'
    end
  else w.

(** The loop ends early once the event's stop-immediate-propagation flag
    is set. *)
Fixpoint call_listeners (ev : Event) (ls : list DocListener)
    (w : World) : World :=
  match ls with
  | [] => w
  | l :: ls' =>
      let w' := call_listener ev l w in
      if decide (ev_id ev ∈ stopped w') then w'
      else call_listeners ev ls' w'
  end.

(** [document.dispatchEvent(ev)] for a non-bubbling event: the listeners
    of the event's type, cloned before the first one runs. *)
Definition document_dispatchEvent (ev : Event) : M unit :=
  fun w => Ok tt (call_listeners ev (subscribers (ev_type ev) w) w).
End Dispatch.

(** ** The event system of the class: [on], [off], [emit] *)

Definition on (event : string) (callback : DocCallback) : M Value :=
  document_addEventListener event callback ;;
  ret VThis.

Definition off (event : string) (callback : DocCallback) : M Value :=
  document_removeEventListener event callback ;;
  ret VThis.

Definition classList_add (id : nat) (c : string) : M unit :=
  modify (set_doc (update_element id (with_classes (class_add c)))).

Definition classList_remove (id : nat) (c : string) : M unit :=
  modify (set_doc (update_element id (with_classes (class_remove c)))).

Definition classList_toggle (id : nat) (c : string) : M unit :=
  modify (set_doc (update_element id (with_classes (class_toggle c)))).

Definition classList_contains (id : nat) (c : string) : M bool :=
  get (fun w => matches_id (SClass c) (doc w) id).

Definition setAttribute (id : nat) (a v : string) : M unit :=
  modify (set_doc (update_element id (with_attr a v))).

Definition getAttribute (id : nat) (a : string) : M (option string) :=
  get (fun w => e ← getElement id (doc w); assoc a (e_attrs e)).

(** [ev.stopImmediatePropagation()] *)
Definition stopImmediatePropagation (ev : Event) : M unit :=
  modify (set_stopped (fun s => ev_id ev :: s)).

(** [new CustomEvent(type, { detail })]: a new event object, none of its
    flags set. *)
Definition new_CustomEvent (type : string) (detail : Obj) : M Event :=
  id <- fresh ;;
  modify (set_stopped (filter (fun i => i ≠ id))) ;;
  ret {| ev_id := id; ev_type := type; ev_detail := detail |}.

Section Callbacks.
(** [this.emit] as seen from inside a listener, one stack frame deeper. *)
Variable emit_next : string -> option Obj -> M Value.

Definition closeDropdown_in (dropdown : nat) : M unit :=
  classList_remove dropdown "active" ;;
  emit_next "easycss:dropdown-closed"
    (Some {["dropdown" := VElement dropdown]}) ;;
  ret tt.

(** The actions of a page handler called with event [ev]. *)
Fixpoint run_actions (ev : Event) (acts : list Action) : M unit :=
  match acts with
  | [] => ret tt
  | AOn name h :: rest => on name (Page h) ;; run_actions ev rest
  | AOff name h :: rest => off name (Page h) ;; run_actions ev rest
  | AEmit name data :: rest => emit_next name data ;; run_actions ev rest
  | AStop :: rest => stopImmediatePropagation ev ;; run_actions ev rest
  | AThrow e :: _ => throw e
  end.

(** The body of each document-level callback, called with a CustomEvent
    whose target is the document. *)
Definition call_callback (callback : DocCallback) (ev : Event) : M unit :=
  match callback with
  | Page h => fun w => run_actions ev (handler_code (host w) h ev) w
  | RemoveListener _ container handleTabKey =>
      (* container.removeEventListener('keydown', handleTabKey) *)
      removeEventListener container "keydown" handleTabKey
  | ModalEscape _ modal =>
      (* e.key === 'Escape' && ...: a CustomEvent has no key *)
      ret tt
  | DropdownOutside _ dropdown =>
      (* !dropdown.contains(e.target): the target is the document *)
      closeDropdown_in dropdown
  end.
End Callbacks.

(** [emit(event, data = {})].  [depth] is the room left on the call stack
    for nested dispatches: a listener may emit again, and the engine throws
    a RangeError once the stack is exhausted. *)
Fixpoint emit (depth : nat) (event : string) (data : option Obj) : M Value :=
  match depth with
  | O => throw stack_error
  | S depth' =>
      now <- Date_now ;;
      customEvent <-
        new_CustomEvent event (<["timestamp" := VNum now]> (default ∅ data)) ;;
      document_dispatchEvent (call_callback (emit depth')) customEvent ;;
      ret VThis
  end.

Definition closeDropdown (depth : nat) : nat -> M unit :=
  closeDropdown_in (emit depth).

(** ** Host helpers used by the widgets *)

Definition selector_error : Error :=
  SyntaxError "Failed to execute 'querySelector' on 'Document': not a valid selector".

(** The selector [`[a="${v}"]`] as [querySelector] reads it.  When every
    character of [v] stands for itself in a CSS string this is the attribute
    selector for the value [v]; any other text goes to the CSS parser, and
    [querySelector] throws a SyntaxError when that rejects it. *)
Definition attribute_selector (a v : string) : M Selector :=
  fun w =>
    if css_plain v then Ok (SAttrEq a v) w
    else match CSS_parse (host w)
                 ("[" +:+ a +:+ "=" +:+ quote +:+ v +:+ quote +:+ "]") with
         | Some s => Ok s w
         | None => Throw selector_error w
         end.

Definition localStorage_getItem (key : string) : M (option string) :=
  fun w => Ok (storage w !! key)
              (set_storage (storage w) (storage_log w ++ [GetItem key]) w).

Definition localStorage_setItem (key value : string) : M unit :=
  fun w => Ok tt (set_storage (<[key := value]> (storage w))
                              (storage_log w ++ [SetItem key value]) w).

(** [v || d] for a string-or-null [v]: null and the empty string are falsy. *)
Definition or_default (v : option string) (d : string) : string :=
  match v with
  | Some s => if decide (s = "") then d else s
  | None => d
  end.

Definition truthy (v : option string) : bool :=
  match v with
  | Some s => negb (bool_decide (s = ""))
  | None => false
  end.

(** [document.documentElement] and [document.body]; using either when it is
    missing is a TypeError on null. *)
Definition documentElement : M nat :=
  fun w => match querySelector (STag "html") (doc w) with
           | Some id => Ok id w
           | None => Throw (TypeError "document.documentElement is null") w
           end.

Definition document_body : M nat :=
  fun w => match querySelector (STag "body") (doc w) with
           | Some id => Ok id w
           | None => Throw (TypeError "document.body is null") w
           end.

Definition set_textContent (id : nat) (t : string) : M unit :=
  modify (set_doc (update_element id (with_text t))).

Definition style_set (id : nat) (p v : string) : M unit :=
  modify (set_doc (update_element id (with_style p v))).

Definition focus (id : nat) : M unit :=
  modify (set_activeElement (Some id)).

(** [setTimeout(task, delay)]: the delay is converted to a 32-bit signed
    integer, and a negative result counts as 0. *)
Definition to_long (n : Z) : Z := ((n + 2 ^ 31) mod 2 ^ 32 - 2 ^ 31)%Z.

Definition timer_delay (delay : Z) : Z := Z.max 0 (to_long delay).

Definition setTimeout (task : TimerTask) (delay : Z) : M unit :=
  modify (set_timers (fun ts => ts ++ [(timer_delay delay, task)])).

(** [parent.appendChild(e)]: [e] becomes the last child, so in document
    order it follows the last node of [parent]'s subtree. *)
Fixpoint insert_after_last (inside : Element -> bool) (e : Element)
    (d : Dom) : Dom :=
  match d with
  | [] => [e]
  | x :: d' =>
      if existsb inside d' then x :: insert_after_last inside e d'
      else if inside x then x :: e :: d'
      else x :: insert_after_last inside e d'
  end.

Definition appendChild (parent : nat) (e : Element) : M unit :=
  modify (set_doc (fun d =>
    insert_after_last
      (fun x => bool_decide (e_id x = parent) || is_descendant d parent (e_id x))
      e d)).

Definition string_of_bool (b : bool) : string :=
  if b then "true" else "false".

(** ** Theme management *)

Definition theme_key : string := "easycss-theme".

(** The two glyphs shown by [.theme-icon] elements. *)
Definition icon_for_dark : string := "sun".
Definition icon_for_light : string := "moon".

(** [element.dir]: the keyword that the [dir] attribute holds, matched
    without regard to ASCII case and returned in lower case; the empty
    string when the attribute is missing or holds anything else. *)
Definition dir_of (id : nat) (d : Dom) : string :=
  match getElement id d ≫= (fun e => assoc "dir" (e_attrs e)) with
  | Some v =>
      if decide (lower v ∈ ["ltr"; "rtl"; "auto"]) then lower v else ""
  | None => ""
  end.

(** The constructor up to its last statement, [this.init()], which runs
    the initialisers once the document is ready. *)
Definition constructor : M unit :=
  modify (set_this_components (fun _ => ∅)) ;;
  modify (set_this_observers (fun _ => ∅)) ;;
  stored <- localStorage_getItem theme_key ;;
  modify (set_this_theme (or_default stored "light")) ;;
  html <- documentElement ;;
  dir <- get (fun w => dir_of html (doc w)) ;;
  modify (set_this_direction (or_default (Some dir) "ltr")).

Definition updateThemeIcon (theme : string) : M unit :=
  icons <- get (fun w => querySelectorAll (SClass "theme-icon") (doc w)) ;;
  forEach (fun icon =>
    set_textContent icon
      (if decide (theme = "dark") then icon_for_dark else icon_for_light))
    icons.

Definition setTheme (depth : nat) (theme : string) : M unit :=
  modify (set_this_theme theme) ;;
  html <- documentElement ;;
  setAttribute html "data-theme" theme ;;
  localStorage_setItem theme_key theme ;;
  updateThemeIcon theme ;;
  emit depth "easycss:theme-changed" (Some {["theme" := VStr theme]}) ;;
  ret tt.

Definition toggleTheme (depth : nat) : M unit :=
  theme <- get this_theme ;;
  let newTheme := if decide (theme = "dark") then "light" else "dark" in
  setTheme depth newTheme.

(** The 'change' listener on the prefers-color-scheme media query. *)
Definition mediaChange (depth : nat) (e_matches : bool) : M unit :=
  stored <- localStorage_getItem theme_key ;;
  if truthy stored then ret tt
  else setTheme depth (if e_matches then "dark" else "light").

Definition initTheme : M unit :=
  theme <- get this_theme ;;
  html <- documentElement ;;
  setAttribute html "data-theme" theme ;;
  updateThemeIcon theme ;;
  toggles <-
    get (fun w => querySelectorAll (SHasAttr "data-theme-toggle") (doc w)) ;;
  forEach (fun toggle =>
    fn <- fresh ;;
    addEventListener toggle "click" (ThemeToggleClick fn)) toggles ;;
  mm <- get (fun w => matchMedia (host w)) ;;
  match mm with
  | Some _ =>
      fn <- fresh ;;
      modify (set_media_listeners (fun ls => ls ++ [fn]))
  | None => ret tt
  end.

Definition getTheme : M string := get this_theme.

Definition getDirection : M string := get this_direction.

Definition setDirection (depth : nat) (direction : string) : M Value :=
  html <- documentElement ;;
  setAttribute html "dir" direction ;;
  modify (set_this_direction direction) ;;
  emit depth "easycss:direction-changed"
    (Some {["direction" := VStr direction]}) ;;
  ret VThis.

Definition registerComponent (name : string) (component : Value) : M Value :=
  modify (set_this_components (fun m => <[name := component]> m)) ;;
  ret VThis.

Definition getComponent (name : string) : M (option Value) :=
  get (fun w => this_components w !! name).

(** ** Modals *)

Definition focusable : Selector :=
  SOr (STag "button") (SOr (SHasAttr "href") (SOr (STag "input")
    (SOr (STag "select") (SOr (STag "textarea")
      (SAnd (SHasAttr "tabindex") (SNot (SAttrEq "tabindex" "-1"))))))).

Definition trapFocus (container : nat) (focusableElements : list nat) : M unit :=
  match focusableElements with
  | [] => ret tt
  | firstElement :: _ =>
      let lastElement := List.last focusableElements firstElement in
      fn <- fresh ;;
      let handleTabKey := HandleTabKey fn firstElement lastElement in
      addEventListener container "keydown" handleTabKey ;;
      fn' <- fresh ;;
      on "easycss:modal-closed" (RemoveListener fn' container handleTabKey) ;;
      ret tt
  end.

Definition openModal (depth : nat) (modalId : string) : M unit :=
  selector <- attribute_selector "data-modal" modalId ;;
  modal <- get (fun w => querySelector selector (doc w)) ;;
  match modal with
  | None => ret tt
  | Some modal =>
      classList_add modal "active" ;;
      body <- document_body ;;
      style_set body "overflow" "hidden" ;;
      focusableElements <-
        get (fun w => querySelectorAllIn modal focusable (doc w)) ;;
      match focusableElements with
      | x :: _ => focus x
      | [] => ret tt
      end ;;
      trapFocus modal focusableElements ;;
      emit depth "easycss:modal-opened"
        (Some (list_to_map [("modal", VElement modal);
                            ("modalId", VStr modalId)])) ;;
      ret tt
  end.

Definition closeModal (depth : nat) (modal : nat) : M unit :=
  classList_remove modal "active" ;;
  body <- document_body ;;
  style_set body "overflow" "" ;;
  emit depth "easycss:modal-closed" (Some {["modal" := VElement modal]}) ;;
  ret tt.

Definition initModals : M unit :=
  modals <- get (fun w => querySelectorAll (SHasAttr "data-modal") (doc w)) ;;
  triggers <-
    get (fun w => querySelectorAll (SHasAttr "data-modal-trigger") (doc w)) ;;
  forEach (fun trigger =>
    fn <- fresh ;;
    addEventListener trigger "click" (ModalTriggerClick fn trigger)) triggers ;;
  forEach (fun modal =>
    closeButtons <-
      get (fun w =>
        querySelectorAllIn modal (SHasAttr "data-modal-close") (doc w)) ;;
    forEach (fun button =>
      fn <- fresh ;;
      addEventListener button "click" (ModalCloseClick fn modal)) closeButtons ;;
    fn <- fresh ;;
    document_addEventListener "keydown" (ModalEscape fn modal) ;;
    backdrop <-
      get (fun w => querySelectorIn modal (SClass "modal-backdrop") (doc w)) ;;
    match backdrop with
    | Some backdrop =>
        fn <- fresh ;;
        addEventListener backdrop "click" (ModalBackdropClick fn modal)
    | None => ret tt
    end) modals.

(** The click listener of a [data-modal-trigger] element. *)
Definition modalTriggerClick (depth : nat) (trigger : nat) : M unit :=
  modalId <- getAttribute trigger "data-modal-trigger" ;;
  openModal depth (default "null" modalId).

(** ** Dropdowns *)

Definition positionDropdown (dropdown menu : nat) : M unit :=
  r <- get (fun w => rect (host w) dropdown) ;;
  menuRect <- get (fun w => rect (host w) menu) ;;
  viewportHeight <- get (fun w => innerHeight (host w)) ;;
  viewportWidth <- get (fun w => innerWidth (host w)) ;;
  classList_remove menu "dropdown-menu-up" ;;
  classList_remove menu "dropdown-menu-right" ;;
  (if bool_decide (viewportHeight < r_bottom r + r_height menuRect)%Z
      && bool_decide (r_height menuRect < r_top r)%Z
   then classList_add menu "dropdown-menu-up" else ret tt) ;;
  (if bool_decide (viewportWidth < r_left r + r_width menuRect)%Z
      && bool_decide (r_width menuRect < r_right r)%Z
   then classList_add menu "dropdown-menu-right" else ret tt).

Definition initDropdowns : M unit :=
  dropdowns <- get (fun w => querySelectorAll (SHasAttr "data-dropdown") (doc w)) ;;
  forEach (fun dropdown =>
    trigger <-
      get (fun w =>
        querySelectorIn dropdown (SHasAttr "data-dropdown-trigger") (doc w)) ;;
    menu <-
      get (fun w => querySelectorIn dropdown (SClass "dropdown-menu") (doc w)) ;;
    match trigger, menu with
    | Some trigger, Some menu =>
        fn <- fresh ;;
        addEventListener trigger "click" (DropdownTriggerClick fn dropdown) ;;
        fn <- fresh ;;
        document_addEventListener "click" (DropdownOutside fn dropdown) ;;
        fn <- fresh ;;
        addEventListener dropdown "keydown" (DropdownKeydown fn dropdown) ;;
        positionDropdown dropdown menu
    | _, _ => ret tt
    end) dropdowns.

Definition openDropdown (depth : nat) (dropdown : nat) : M unit :=
  classList_add dropdown "active" ;;
  menu <- get (fun w => querySelectorIn dropdown (SClass "dropdown-menu") (doc w)) ;;
  match menu with
  | Some menu => positionDropdown dropdown menu
  | None => ret tt
  end ;;
  emit depth "easycss:dropdown-opened"
    (Some {["dropdown" := VElement dropdown]}) ;;
  ret tt.

Definition toggleDropdown (depth : nat) (dropdown : nat) : M unit :=
  isActive <- classList_contains dropdown "active" ;;
  others <-
    get (fun w => querySelectorAll (SAnd (SHasAttr "data-dropdown") (SClass "active"))
                    (doc w)) ;;
  forEach (fun d =>
    if decide (d = dropdown) then ret tt else closeDropdown depth d) others ;;
  if isActive then closeDropdown depth dropdown
  else openDropdown depth dropdown.

(** ** Toasts *)

(** [iconMap[type] || info icon].  [iconMap] is a plain object, so a type
    that names a member of [Object.prototype] finds that member, and the
    template prints its text. *)
Definition toast_icon (h : Host) (type : string) : string :=
  if decide (type = "success") then "success-icon"
  else if decide (type = "warning") then "warning-icon"
  else if decide (type = "danger") then "danger-icon"
  else if decide (type = "info") then "info-icon"
  else default "info-icon" (Object_prototype_text h type).

Definition new_element (id : nat) (tag : string) (parent : option nat)
    (attrs : list (string * string)) (classes : list string)
    (text : string) : Element :=
  {| e_id := id; e_tag := tag; e_parent := parent; e_attrs := attrs;
     e_classes := classes; e_text := text; e_style := [] |}.

(** The template literal of [showToast], with its line breaks and
    indentation. *)
Definition toast_markup (icon title message : string) : string :=
  newline
  +:+ "            <div class=" +:+ quote +:+ "toast-icon" +:+ quote +:+ ">"
  +:+ icon +:+ "</div>" +:+ newline
  +:+ "            <div class=" +:+ quote +:+ "toast-content" +:+ quote +:+ ">"
  +:+ newline
  +:+ "                <div class=" +:+ quote +:+ "toast-title" +:+ quote +:+ ">"
  +:+ title +:+ "</div>" +:+ newline
  +:+ "                <div class=" +:+ quote +:+ "toast-message" +:+ quote
  +:+ ">" +:+ message +:+ "</div>" +:+ newline
  +:+ "            </div>" +:+ newline
  +:+ "            <button class=" +:+ quote +:+ "toast-close" +:+ quote
  +:+ " aria-label=" +:+ quote +:+ "Close notification" +:+ quote
  +:+ ">&times;</button>" +:+ newline
  +:+ "        ".

(** [root.innerHTML = markup], for a [root] that has no children: the
    elements the parser makes of the markup become the subtree of [root],
    each of them a new object.  (Text placed directly under [root] is not
    kept.) *)
Definition set_innerHTML (root : nat) (markup : string) : M unit :=
  nodes <- get (fun w => innerHTML_parse (host w) markup) ;;
  base <- get next_id ;;
  forEach (fun p =>
    id <- fresh ;;
    appendChild (from_option (fun i => i + base) root (p_parent p))
      (new_element id (p_tag p)
         (Some (from_option (fun i => i + base) root (p_parent p)))
         (p_attrs p) (p_classes p) (p_text p))) nodes.

Arguments toast_markup : simpl never.
Arguments toast_icon : simpl never.
Arguments class_tokens : simpl never.
Arguments timer_delay : simpl never.

Definition close_button_error : Error :=
  TypeError "Cannot read properties of null (reading 'addEventListener')".

Definition hideToast (toast : nat) : M unit :=
  classList_remove toast "show" ;;
  setTimeout (RemoveToast toast) 300.

(** [showToast(config)].  The toast is filled from the template and put
    into the container (the model attaches it first and fills it then;
    nothing runs in between).  The title and the message go into the markup
    as they are, so what the toast contains is what the HTML parser makes
    of them; the close button is looked up afterwards, and using it throws
    when the markup has none.  Returns the toast, or nothing when the page
    has no toast container. *)
Definition showToast (depth : nat) (config : ToastConfig) : M (option nat) :=
  let type := default "info" (cfg_type config) in
  let title := default "undefined" (cfg_title config) in
  let message := default "undefined" (cfg_message config) in
  let duration := default 5000%Z (cfg_duration config) in
  let persistent := default false (cfg_persistent config) in
  container <-
    get (fun w => querySelector (SHasAttr "data-toast-container") (doc w)) ;;
  match container with
  | None => ret None
  | Some container =>
      now <- Date_now ;;
      toast <- fresh ;;
      icon <- get (fun w => toast_icon (host w) type) ;;
      appendChild container
        (new_element toast "div" (Some container)
           [("id", "toast-" +:+ pretty now); ("role", "alert");
            ("aria-live", "assertive")]
           (class_tokens ("toast toast-" +:+ type)) "") ;;
      set_innerHTML toast (toast_markup icon title message) ;;
      (* requestAnimationFrame(() => toast.classList.add('show')) *)
      modify (set_frames (fun fs => fs ++ [toast])) ;;
      closeButton <-
        get (fun w => querySelectorIn toast (SClass "toast-close") (doc w)) ;;
      match closeButton with
      | None => throw close_button_error
      | Some closeButton =>
          fn <- fresh ;;
          addEventListener closeButton "click" (ToastCloseClick fn toast) ;;
          (if negb persistent && bool_decide (0 < duration)%Z
           then setTimeout (HideToast toast) duration
           else ret tt) ;;
          emit depth "easycss:toast-shown"
            (Some (list_to_map [("toast", VElement toast);
                                ("config", VConfig config)])) ;;
          ret (Some toast)
      end
  end.

Definition initToasts : M unit :=
  triggers <-
    get (fun w => querySelectorAll (SHasAttr "data-toast-trigger") (doc w)) ;;
  forEach (fun trigger =>
    fn <- fresh ;;
    addEventListener trigger "click" (ToastTriggerClick fn trigger)) triggers ;;
  existing <-
    get (fun w => querySelector (SHasAttr "data-toast-container") (doc w)) ;;
  match existing with
  | Some _ => ret tt
  | None =>
      container <- fresh ;;
      body <- document_body ;;
      appendChild body
        (new_element container "div" (Some body)
           [("data-toast-container", ""); ("aria-live", "polite");
            ("aria-atomic", "true")]
           ["toast-container"] "")
  end.

Definition destructure_error : Error :=
  TypeError "Cannot destructure property 'type' of 'config' as it is null.".

(** The click listener of a [data-toast-trigger] element. *)
Definition toastTriggerClick (depth : nat) (trigger : nat) : M unit :=
  attr <- getAttribute trigger "data-toast-trigger" ;;
  parsed <- get (fun w => JSON_parse (host w) (default "null" attr)) ;;
  match parsed with
  | JValue config => showToast depth config ;; ret tt
  | JNull => throw destructure_error
  | JInvalid => throw (SyntaxError "JSON.parse")
  end.

(** What a timer does when it fires. *)
Definition run_timer (depth : nat) (task : TimerTask) : M unit :=
  match task with
  | HideToast toast => hideToast toast
  | RemoveToast toast =>
      attached <- get (fun w => bool_decide (is_Some (getElement toast (doc w)))) ;;
      if (attached : bool) then
        (* toast.parentNode.removeChild(toast): the subtree leaves the document *)
        modify (set_doc (fun d => filter (fun e =>
          e_id e ≠ toast ∧ is_descendant d toast (e_id e) = false) d)) ;;
        emit depth "easycss:toast-hidden" (Some {["toast" := VElement toast]}) ;;
        ret tt
      else ret tt
  end.

(** The public aliases. *)
Definition showModal := openModal.
Definition hideModal := closeModal.
Definition showDropdown := openDropdown.
Definition hideDropdown := closeDropdown.
Definition notify := showToast.

(** ** Navbar toggle *)

Definition initNavbarToggle : M unit :=
  toggles <-
    get (fun w => querySelectorAll (SHasAttr "data-navbar-toggle") (doc w)) ;;
  forEach (fun toggle =>
    fn <- fresh ;;
    addEventListener toggle "click" (NavbarToggleClick fn toggle)) toggles.

(** The click listener of a [data-navbar-toggle] element. *)
Definition navbarToggleClick (depth : nat) (toggle : nat) : M unit :=
  navbar <- get (fun w => closest (SClass "navbar") (doc w) toggle) ;;
  match navbar with
  | None =>
      (* navbar.querySelector on null *)
      throw navbar_null_error
  | Some navbar =>
      nav <- get (fun w => querySelectorIn navbar (SClass "navbar-nav") (doc w)) ;;
      match nav with
      | Some nav =>
          isActive <- classList_contains nav "active" ;;
          classList_toggle nav "active" ;;
          classList_toggle toggle "active" ;;
          setAttribute toggle "aria-expanded" (string_of_bool (negb isActive)) ;;
          setAttribute nav "aria-hidden" (string_of_bool isActive) ;;
          emit depth "easycss:navbar-toggled"
            (Some (list_to_map [("navbar", VElement navbar);
                                ("nav", VElement nav);
                                ("isActive", VBool (negb isActive))])) ;;
          ret tt
      | None => ret tt
      end
  end.

(** ** Scroll-triggered animations *)

Definition reduced_motion : string := "(prefers-reduced-motion: reduce)".

(** The callback [initAnimationTriggers] passes to [forEach]. *)
Definition pause_and_observe (observer element : nat) : M unit :=
  mm <- get (fun w => matchMedia (host w)) ;;
  match mm with
  | None => throw matchMedia_error
  | Some media =>
      if media reduced_motion then ret tt
      else
        style_set element "animationPlayState" "paused" ;;
        modify (set_observed (fun o => o ++ [(observer, element)]))
  end.

Definition initAnimationTriggers : M unit :=
  supported <- get (fun w => has_IntersectionObserver (host w)) ;;
  if (supported : bool) then
    animatedElements <-
      get (fun w => querySelectorAll (SClassContains "animate-") (doc w)) ;;
    observer <- fresh ;;
    forEach (pause_and_observe observer) animatedElements ;;
    modify (set_this_observers (fun m => <["animations" := observer]> m))
  else ret tt.

(** * Vocabulary of the statements *)

(** From any world satisfying [P], the computation ends (normally or by a
    throw) in a world related to the start by [R]. *)
Definition preserves (P : World -> Prop) (R : relation World) {A} (c : M A)
  : Prop :=
  forall w, P w -> R w (world_of (c w)).

(** An action that neither unsubscribes a handler nor stops the event. *)
Definition calm_action (a : Action) : bool :=
  match a with
  | AOff _ _ | AStop => false
  | _ => true
  end.

(** The actions a handler gets to: those before its first throw. *)
Fixpoint before_throw (acts : list Action) : list Action :=
  match acts with
  | [] => []
  | AThrow _ :: _ => []
  | a :: rest => a :: before_throw rest
  end.

Definition calm_code (acts : list Action) : bool :=
  forallb calm_action (before_throw acts).

(** A call is calm when the handler, called with that event, neither
    unsubscribes anything nor stops the event's propagation.  The
    framework's own listeners never do. *)
Definition calm (h : Host) (i : Invocation) : bool :=
  match inv_callback i with
  | Page p => calm_code (handler_code h p (inv_event i))
  | _ => true
  end.

Definition calm_calls (h : Host) (t : list Invocation) : Prop :=
  Forall (fun i => calm h i = true) t.

Definition new_calls (w w' : World) : list Invocation :=
  drop (length (trace w)) (trace w').

(** Two documents with the same tree: the same nodes under the same
    parents, in the same order. *)
Definition same_tree (d d' : Dom) : Prop :=
  Forall2 (fun e e' => e_id e' = e_id e /\ e_parent e' = e_parent e) d d'.

(** What a dispatch can do to an element: nothing, or take its [active]
    class away (the outside-click listener of a dropdown). *)
Definition settled (e e' : Element) : Prop :=
  e' = e \/ e' = with_classes (class_remove "active") e.

(** [bus_step K b w w']: the footprint of the event system.  Calls are only
    appended to the trace, and only with events numbered [b] or later;
    reports are only appended; timers, storage and the instance's fields
    are untouched, and the elements of the document stay in place, losing
    at most the class [active].  Under [K], when every call made was calm,
    no document listener is lost and no event is stopped. *)
Record bus_step (K : Prop) (b : nat) (w w' : World) : Prop := {
  bs_host : host w' = host w;
  bs_next : next_id w <= next_id w';
  bs_trace : exists delta,
      trace w' = trace w ++ delta
      /\ Forall (fun i => b <= ev_id (inv_event i)) delta;
  bs_reported : reported w `prefix_of` reported w';
  bs_timers : timers w' = timers w;
  bs_storage : storage w' = storage w;
  bs_storage_log : storage_log w' = storage_log w;
  bs_theme : this_theme w' = this_theme w;
  bs_frames : frames w' = frames w;
  bs_observed : observed w' = observed w;
  bs_media : media_listeners w' = media_listeners w;
  bs_observers : this_observers w' = this_observers w;
  bs_page : Forall2 settled (doc w) (doc w');
  bs_keeps : K -> calm_calls (host w) (new_calls w w') ->
      forall l, l ∈ doc_listeners w -> l ∈ doc_listeners w';
  bs_flags : K -> calm_calls (host w) (new_calls w w') ->
      forall i, i ∈ stopped w' -> i ∈ stopped w;
}.

(** The worlds the footprint is stated from: every event still to be
    created is numbered [b] or later. *)
Definition quiet (b : nat) (w : World) : Prop := b <= next_id w.

Definition bus (K : Prop) (b : nat) {A} (c : M A) : Prop :=
  preserves (quiet b) (bus_step K b) c.

(** The event [emit] creates when called in world [w]. *)
Definition the_event (event : string) (data : option Obj) (w : World) : Event :=
  {| ev_id := next_id w; ev_type := event;
     ev_detail := <["timestamp" := VNum (clock (host w) (clock_reads w))]>
                    (default ∅ data) |}.

(** The calls in a stretch of trace that were made with event number [id],
    and the callbacks that received it, both in call order. *)
Definition calls_with (id : nat) (t : list Invocation) : list Invocation :=
  filter (fun i => ev_id (inv_event i) = id) t.

Definition delivered (id : nat) (t : list Invocation) : list DocCallback :=
  inv_callback <$> calls_with id t.

Definition call_of (ev : Event) (cb : DocCallback) : Invocation :=
  {| inv_callback := cb; inv_event := ev |}.

(** The world in which [emit] starts its dispatch: the clock has been read
    and the event created. *)
Definition dispatch_start (w : World) : World :=
  set_stopped (filter (fun i => i ≠ next_id w))
    (set_next_id (S (next_id w)) (set_clock_reads (S (clock_reads w)) w)).

(** The turn rule: of the listeners cloned at dispatch start, the ones that
    get called are those still in the document's list when their turn
    comes, and the turns end once the event's stop-immediate-propagation
    flag is set. *)
Fixpoint called_in_turn (call : DocCallback -> Event -> M unit) (ev : Event)
    (ls : list DocListener) (w : World) : list DocListener :=
  match ls with
  | [] => []
  | l :: ls' =>
      (if decide (dl_id l ∈ dl_id <$> doc_listeners w) then [l] else [])
      ++ (if decide (ev_id ev ∈ stopped (call_listener call ev l w)) then []
          else called_in_turn call ev ls' (call_listener call ev l w))
  end.

Definition distinct_listeners (w : World) : Prop :=
  NoDup ((fun l => (dl_type l, dl_callback l)) <$> doc_listeners w).

(** The document never holds two listeners for the same type and callback:
    the invariant is kept by everything the event system does. *)
Definition keeps_distinct (w w' : World) : Prop :=
  distinct_listeners w -> distinct_listeners w'.

Definition distinct_kept {A} (c : M A) : Prop :=
  preserves (fun _ => True) keeps_distinct c.

(** The own and inherited members of the framework instance: the fields set
    by the constructor and the methods of the class. *)
Definition EasyCSSEnhanced_members : list string :=
  ["components"; "observers"; "theme"; "direction";
   "constructor"; "init"; "initializeComponents"; "initTheme"; "toggleTheme";
   "setTheme"; "updateThemeIcon"; "initModals"; "openModal"; "closeModal";
   "trapFocus"; "initDropdowns"; "toggleDropdown"; "openDropdown";
   "closeDropdown"; "positionDropdown"; "handleDropdownKeyboard"; "initTabs";
   "switchTab"; "handleTabKeyboard"; "initAccordions"; "toggleAccordionItem";
   "handleAccordionKeyboard"; "initTooltips"; "positionTooltip"; "initToasts";
   "showToast"; "hideToast"; "initNavbarToggle"; "initSmoothScroll";
   "initAnimationTriggers"; "initLoadingStates"; "initAlertClose";
   "initLanguageToggle"; "initAccessibility"; "createSkipLink";
   "initFocusManagement"; "initKeyboardNavigation"; "initScreenReaderSupport";
   "announceToScreenReader"; "initPerformanceOptimizations"; "handleResize";
   "initLazyLoading"; "prefetchResources"; "on"; "off"; "emit";
   "registerComponent"; "getComponent"; "destroy"; "showModal"; "hideModal";
   "showDropdown"; "hideDropdown"; "notify"; "setDirection"; "getTheme";
   "getDirection"].

(** Whether [v.m] is defined, for the values [on] and [off] can return. *)
Definition has_member (v : Value) (m : string) : bool :=
  match v with
  | VThis => bool_decide (m ∈ EasyCSSEnhanced_members)
  | _ => false
  end.

(** localStorage, the log of accesses to it and the instance's theme are
    left as they were. *)
Definition storage_same (w w' : World) : Prop :=
  storage w' = storage w /\ storage_log w' = storage_log w
  /\ this_theme w' = this_theme w.

Definition keeps_storage {A} (c : M A) : Prop :=
  preserves (fun _ => True) storage_same c.

(** Total runs: from a world satisfying [P] the computation returns
    normally, in a world related to the start by [R]. *)
Definition runs (P : World -> Prop) (R : relation World) {A} (c : M A) : Prop :=
  forall w, P w -> exists a w', c w = Ok a w' /\ R w w'.

(** Which listeners count as bindings made by [initModals] on trigger [t]. *)
Definition is_trigger_click (t : nat) (l : ElListener) : bool :=
  bool_decide (el_target l = t) && bool_decide (el_type l = "click")
  && match el_callback l with
     | ModalTriggerClick _ t' => bool_decide (t' = t)
     | _ => false
     end.

Definition trigger_bindings (t : nat) (w : World) : nat :=
  length (filter (fun l => is_trigger_click t l = true) (el_listeners w)).

(** Every closure on an element was numbered before [next_id]. *)
Definition fns_allocated (w : World) : Prop :=
  Forall (fun l => callback_fn (el_callback l) < next_id w) (el_listeners w).

(** [n] activation passes of [initModals], one after the other. *)
Definition activate (n : nat) (w : World) : World :=
  Nat.iter n (fun w => world_of (initModals w)) w.

(** The footprint of the parts of a pass that do not bind trigger [t]. *)
Record quiet_pass (t : nat) (w w' : World) : Prop := {
  qp_doc : doc w' = doc w;
  qp_next : next_id w <= next_id w';
  qp_fns : fns_allocated w -> fns_allocated w';
  qp_count : trigger_bindings t w' = trigger_bindings t w;
}.

Definition pass (t : nat) {A} (c : M A) : Prop :=
  runs (fun _ => True) (quiet_pass t) c.

Definition anything : relation World := fun _ _ => True.

(** [returns c]: [c] never throws. *)
Definition returns {A} (c : M A) : Prop := runs (fun _ => True) anything c.

(** Every node of the document, and every parent it names, was numbered
    before [next_id]: the nodes created from now on are new to the page. *)
Definition nodes_allocated (w : World) : Prop :=
  Forall (fun e => e_id e < next_id w
                   /\ forall p, e_parent e = Some p -> p < next_id w) (doc w).

Definition present (d : Dom) (id : nat) : Prop := is_Some (getElement id d).

(** What the HTML parser makes of the toast template when the icon, the
    title and the message hold no markup: five elements, the title and the
    message inside the content. *)
Definition toast_nodes (icon title message : string) : list Parsed :=
  [ {| p_parent := None; p_tag := "div"; p_attrs := [];
       p_classes := ["toast-icon"]; p_text := icon |};
    {| p_parent := None; p_tag := "div"; p_attrs := [];
       p_classes := ["toast-content"];
       p_text := newline +:+ "                " +:+ newline
                 +:+ "                " +:+ newline +:+ "            " |};
    {| p_parent := Some 1; p_tag := "div"; p_attrs := [];
       p_classes := ["toast-title"]; p_text := title |};
    {| p_parent := Some 1; p_tag := "div"; p_attrs := [];
       p_classes := ["toast-message"]; p_text := message |};
    {| p_parent := None; p_tag := "button";
       p_attrs := [("aria-label", "Close notification")];
       p_classes := ["toast-close"]; p_text := "×" |} ].

(** * Sample pages *)

Definition sample_rect : Rect :=
  {| r_top := 0; r_left := 0; r_bottom := 0; r_right := 0;
     r_width := 0; r_height := 0 |}.

(** The HTML parser on the pieces of markup the sample pages use.  In the
    third one the title opens a comment that nothing closes, so the rest
    of the template, the close button included, is comment text. *)
Definition sample_innerHTML (markup : string) : list Parsed :=
  if decide (markup = toast_markup "info-icon" "Saved" "Done")
  then toast_nodes "info-icon" "Saved" "Done"
  else if decide (markup = toast_markup "warning-icon" "Careful" "Read this")
  then toast_nodes "warning-icon" "Careful" "Read this"
  else if decide (markup = toast_markup "info-icon" "<!--" "Done")
  then [ {| p_parent := None; p_tag := "div"; p_attrs := [];
            p_classes := ["toast-icon"]; p_text := "info-icon" |};
         {| p_parent := None; p_tag := "div"; p_attrs := [];
            p_classes := ["toast-content"];
            p_text := newline +:+ "                " |};
         {| p_parent := Some 1; p_tag := "div"; p_attrs := [];
            p_classes := ["toast-title"]; p_text := "" |} ]
  else [].

Definition page_host (code : nat -> Event -> list Action)
    (io : bool) (mm : option (string -> bool)) : Host :=
  {| handler_code := code; clock := fun n => (1700000000000 + Z.of_nat n)%Z;
     has_IntersectionObserver := io; matchMedia := mm;
     rect := fun _ => sample_rect; innerWidth := 1024; innerHeight := 768;
     JSON_parse := fun _ => JInvalid; CSS_parse := fun _ => None;
     innerHTML_parse := sample_innerHTML;
     Object_prototype_text := fun _ => None |}.

(** A freshly loaded page: no listeners yet, nothing stored. *)
Definition loaded (h : Host) (d : Dom) : World :=
  {| host := h; doc := d; activeElement := None; el_listeners := [];
     doc_listeners := []; media_listeners := []; next_id := 100;
     clock_reads := 0; storage := ∅; storage_log := []; timers := [];
     frames := []; observed := []; reported := []; trace := [];
     this_components := ∅; this_observers := ∅; this_theme := "light";
     this_direction := "ltr"; stopped := [] |}.

Definition subscribe_all (name : string) (hs : list nat) (w : World) : World :=
  foldl (fun w h => world_of (on name (Page h) w)) w hs.

(** Handlers 1, 2, 3 only observe, except that 2 throws. *)
Definition abc_code (h : nat) (ev : Event) : list Action :=
  match h with
  | 2 => [AThrow (PageError "B failed")]
  | _ => []
  end.

Definition abc_world : World :=
  subscribe_all "x:changed" [1; 2; 3] (loaded (page_host abc_code true None) []).

(** Handler 1 cancels handler 2 and subscribes handler 4 when called. *)
Definition cancelling_code (h : nat) (ev : Event) : list Action :=
  match h with
  | 1 => [AOff "x:changed" 2; AOn "x:changed" 4]
  | _ => []
  end.

Definition cancelling_world : World :=
  subscribe_all "x:changed" [1; 2; 3]
    (loaded (page_host cancelling_code true None) []).

(** Handler 2 throws, after unsubscribing handler 3. *)
Definition unsubscribing_code (h : nat) (ev : Event) : list Action :=
  match h with
  | 2 => [AOff "x:changed" 3; AThrow (PageError "B failed")]
  | _ => []
  end.

Definition unsubscribing_world : World :=
  subscribe_all "x:changed" [1; 2; 3]
    (loaded (page_host unsubscribing_code true None) []).

(** Handler 2 throws, after stopping the event. *)
Definition stopping_code (h : nat) (ev : Event) : list Action :=
  match h with
  | 2 => [AStop; AThrow (PageError "B failed")]
  | _ => []
  end.

Definition stopping_world : World :=
  subscribe_all "x:changed" [1; 2; 3]
    (loaded (page_host stopping_code true None) []).

Definition stamped_payload : Obj :=
  <["timestamp" := VStr "mine"]> {["v" := VNum 1]}.

Definition page_skeleton : Dom :=
  [ new_element 0 "html" None [] [] "";
    new_element 1 "body" (Some 0) [] [] "" ].

Definition skeleton_world : World :=
  loaded (page_host abc_code true None) page_skeleton.

(** A page with two navbar toggles (one inside a [.navbar], one outside),
    a dropdown without a menu, and a modal. *)
Definition widget_page : Dom :=
  [ new_element 0 "html" None [] [] "";
    new_element 1 "body" (Some 0) [] [] "";
    new_element 2 "nav" (Some 1) [] ["navbar"] "";
    new_element 3 "button" (Some 2) [("data-navbar-toggle", "")] [] "";
    new_element 4 "ul" (Some 2) [] ["navbar-nav"] "";
    new_element 5 "button" (Some 1) [("data-navbar-toggle", "")] [] "";
    new_element 6 "div" (Some 1) [("data-dropdown", "")] [] "";
    new_element 7 "button" (Some 6) [("data-dropdown-trigger", "")] [] "";
    new_element 8 "button" (Some 1) [("data-modal-trigger", "m1")] [] "";
    new_element 9 "div" (Some 1) [("data-modal", "m1")] [] "";
    new_element 10 "button" (Some 9) [("data-modal-close", "")] [] "" ].

Definition widget_world : World :=
  loaded (page_host abc_code true None) widget_page.

Definition animated_page : Dom :=
  [ new_element 0 "html" None [] [] "";
    new_element 1 "body" (Some 0) [] [] "";
    new_element 2 "div" (Some 1) [] ["animate-fade-in"] "";
    new_element 3 "div" (Some 1) [] ["card"; "animate-slide-up"] "" ].

(** A browser with IntersectionObserver but without [window.matchMedia]. *)
Definition animated_world : World :=
  loaded (page_host abc_code true None) animated_page.

(** The skeleton page once [initToasts] has added the toast container. *)
Definition toast_world : World :=
  world_of (initToasts skeleton_world).

Definition no_options : ToastConfig :=
  {| cfg_type := None; cfg_title := Some "Saved"; cfg_message := Some "Done";
     cfg_duration := None; cfg_persistent := None |}.

Definition sticky_options : ToastConfig :=
  {| cfg_type := Some "warning"; cfg_title := Some "Careful";
     cfg_message := Some "Read this"; cfg_duration := Some 3000%Z;
     cfg_persistent := Some true |}.

(** A title that opens an HTML comment. *)
Definition comment_options : ToastConfig :=
  {| cfg_type := None; cfg_title := Some "<!--"; cfg_message := Some "Done";
     cfg_duration := None; cfg_persistent := None |}.

(** A duration of 2^31 milliseconds. *)
Definition long_options : ToastConfig :=
  {| cfg_type := None; cfg_title := Some "Saved"; cfg_message := Some "Done";
     cfg_duration := Some 2147483648%Z; cfg_persistent := None |}.

(** * Reasoning rules for computations *)

Section Preserves.
Context (P : World -> Prop) (R : relation World).
Context `{!Reflexive R} `{!Transitive R}.
Hypothesis stable : forall w w', P w -> R w w' -> P w'.

Lemma preserves_ret {A} (a : A) : preserves P R (ret a).
Proof. intros w _. reflexivity. Qed.

Lemma preserves_throw {A} (e : Error) : preserves P R (@throw A e).
Proof. intros w _. reflexivity. Qed.

Lemma preserves_get {A} (f : World -> A) : preserves P R (get f).
Proof. intros w _. reflexivity. Qed.

Lemma preserves_bind {A B} (c : M A) (k : A -> M B) :
  preserves P R c -> (forall a, preserves P R (k a)) ->
  preserves P R (bind c k).
Proof.
  intros Hc Hk w Hw. unfold bind.
  specialize (Hc w Hw). destruct (c w) as [a w'|e w']; simpl in *.
  - etransitivity; [exact Hc|]. apply Hk. eauto.
  - exact Hc.
Qed.

Lemma preserves_forEach {A} (f : A -> M unit) (l : list A) :
  (forall x, preserves P R (f x)) -> preserves P R (forEach f l).
Proof.
  intros Hf. induction l as [|x l IH]; simpl.
  - apply preserves_ret.
  - apply preserves_bind; [apply Hf|intros _; exact IH].
Qed.

End Preserves.

(** * What a dispatch can and cannot change *)

Lemma new_calls_app w w' delta :
  trace w' = trace w ++ delta -> new_calls w w' = delta.
Proof. intros E. unfold new_calls. rewrite E. by rewrite drop_app_length. Qed.

Lemma new_calls_same w w' : trace w' = trace w -> new_calls w w' = [].
Proof. intros E. apply new_calls_app. by rewrite app_nil_r. Qed.

Lemma same_tree_refl (d : Dom) : same_tree d d.
Proof. unfold same_tree. induction d; by constructor. Qed.

Lemma class_remove_idem c cs :
  class_remove c (class_remove c cs) = class_remove c cs.
Proof.
  unfold class_remove. induction cs as [|x cs IH]; [done|].
  rewrite filter_cons. destruct (decide (x <> c)); [|done].
  by rewrite filter_cons_True, IH.
Qed.

Lemma settled_trans e1 e2 e3 : settled e1 e2 -> settled e2 e3 -> settled e1 e3.
Proof.
  intros [->| ->] [->| ->]; [by left|by right|by right|right].
  unfold with_classes. simpl. by rewrite class_remove_idem.
Qed.

Lemma settled_all_refl (d : Dom) : Forall2 settled d d.
Proof. induction d; constructor; [by left|done]. Qed.

Lemma settled_same_tree (d d' : Dom) : Forall2 settled d d' -> same_tree d d'.
Proof.
  intros H. eapply Forall2_impl; [exact H|]. by intros e e' [->| ->].
Qed.

Lemma settled_kept (d d' : Dom) e :
  Forall2 settled d d' -> e ∈ d ->
  class_remove "active" (e_classes e) = e_classes e -> e ∈ d'.
Proof.
  induction 1 as [|x x' d d' Hx _ IH]; [by intros ?%elem_of_nil|].
  intros [->|He]%elem_of_cons Hc; [|right; auto].
  destruct Hx as [->| ->]; [by left|].
  assert (with_classes (class_remove "active") x = x) as ->; [|by left].
  destruct x. unfold with_classes. simpl in *. by rewrite Hc.
Qed.

Lemma same_tree_trans (d1 d2 d3 : Dom) :
  same_tree d1 d2 -> same_tree d2 d3 -> same_tree d1 d3.
Proof.
  unfold same_tree. intros H12. revert d3.
  induction H12 as [|e1 e2 d1 d2 [Hi Hp] _ IH]; intros d3 H23.
  - by apply Forall2_nil_inv_l in H23 as ->.
  - apply Forall2_cons_inv_l in H23 as (e3 & d3' & [Hi' Hp'] & H23 & ->).
    constructor; [split; congruence|by apply IH].
Qed.

Lemma update_same_tree id f (d : Dom) :
  (forall e, e_id (f e) = e_id e) -> (forall e, e_parent (f e) = e_parent e) ->
  same_tree d (update_element id f d).
Proof.
  intros Hi Hp. unfold same_tree, update_element.
  induction d as [|e d IH]; [constructor|].
  rewrite fmap_cons. constructor; [|exact IH]. by destruct (decide _).
Qed.

#[global] Instance bus_step_refl K b : Reflexive (bus_step K b).
Proof.
  intros w. split; try done.
  - exists []. by rewrite app_nil_r.
  - apply settled_all_refl.
Qed.

#[global] Instance bus_step_trans K b : Transitive (bus_step K b).
Proof.
  intros w1 w2 w3
    [H1 N1 (d1 & E1 & F1) R1 ? ? ? ? ? ? ? ? D1 K1 G1]
    [H2 N2 (d2 & E2 & F2) R2 ? ? ? ? ? ? ? ? D2 K2 G2].
  assert (trace w3 = trace w1 ++ (d1 ++ d2)) as E3
      by (by rewrite E2, E1, app_assoc).
  rewrite (new_calls_app _ _ _ E1) in K1, G1.
  rewrite (new_calls_app _ _ _ E2), H1 in K2, G2.
  split; try congruence.
  - lia.
  - exists (d1 ++ d2). split; [done|]. apply Forall_app. by split.
  - by etransitivity.
  - eapply Forall2_trans; [|exact D1|exact D2]. intros ? ? ?. apply settled_trans.
  - rewrite (new_calls_app _ _ _ E3).
    intros k [C1 C2]%Forall_app l Hl. apply K2; [done..|]. by apply K1.
  - rewrite (new_calls_app _ _ _ E3).
    intros k [C1 C2]%Forall_app i Hi. apply G1; [done..|]. by apply G2.
Qed.

Lemma bus_step_weaken (K K' : Prop) b w w' :
  (K' -> K) -> bus_step K b w w' -> bus_step K' b w w'.
Proof. intros HK []. split; auto. Qed.

Lemma quiet_stable K b w w' : quiet b w -> bus_step K b w w' -> quiet b w'.
Proof. unfold quiet. intros Hb []. lia. Qed.

Lemma bus_weaken (K K' : Prop) b {A} (c : M A) :
  (K' -> K) -> bus K b c -> bus K' b c.
Proof. intros HK Hc w Hw. eapply bus_step_weaken; [exact HK|]. by apply Hc. Qed.

Lemma bus_bind K b {A B} (c : M A) (k : A -> M B) :
  bus K b c -> (forall a, bus K b (k a)) -> bus K b (bind c k).
Proof. apply preserves_bind; [apply _|apply quiet_stable]. Qed.

Lemma bus_ret K b {A} (a : A) : bus K b (ret a).
Proof. apply preserves_ret, _. Qed.

Lemma bus_get K b {A} (f : World -> A) : bus K b (get f).
Proof. apply preserves_get, _. Qed.

Lemma bus_throw K b {A} (e : Error) : bus K b (@throw A e).
Proof. apply preserves_throw, _. Qed.

Ltac bus_steps :=
  repeat lazymatch goal with
    | |- bus _ _ (ret _) => apply bus_ret
    | |- bus _ _ (get _) => apply bus_get
    | |- bus _ _ (throw _) => apply bus_throw
    | |- bus _ _ (bind _ _) => apply bus_bind; [|intros ?]
    end.

Ltac frame_step :=
  split; simpl; try done; try lia;
  try (exists []; by rewrite app_nil_r);
  try apply settled_all_refl.

Lemma with_classes_same f e : f (e_classes e) = e_classes e -> with_classes f e = e.
Proof. intros E. destruct e. unfold with_classes. simpl in *. by rewrite E. Qed.

Lemma bus_classList_remove_active K b id : bus K b (classList_remove id "active").
Proof.
  intros w _. frame_step. unfold update_element.
  induction (doc w) as [|e d IH]; [constructor|].
  rewrite fmap_cons. constructor; [|exact IH].
  destruct (decide _); [by right|by left].
Qed.

Lemma bus_modify_el K b f : bus K b (modify (set_el_listeners f)).
Proof. intros w _. frame_step. Qed.

Lemma bus_Date_now K b : bus K b Date_now.
Proof. intros w _. frame_step. Qed.

Lemma bus_report K b e w : bus_step K b w (report e w).
Proof. frame_step. by apply prefix_app_r. Qed.

Lemma bus_document_addEventListener K b type cb :
  bus K b (document_addEventListener type cb).
Proof.
  intros w _. unfold document_addEventListener.
  destruct (decide _); [reflexivity|].
  frame_step. intros _ _ l Hl. apply elem_of_app. by left.
Qed.

Lemma bus_on K b name cb : bus K b (on name cb).
Proof. unfold on. bus_steps. apply bus_document_addEventListener. Qed.

Lemma bus_off K b name cb : ~ K -> bus K b (off name cb).
Proof. intros HK w _. frame_step. Qed.

Lemma bus_stopImmediatePropagation K b ev :
  ~ K -> bus K b (stopImmediatePropagation ev).
Proof. intros HK w _. frame_step. Qed.

Lemma bus_new_CustomEvent K b type detail : bus K b (new_CustomEvent type detail).
Proof.
  intros w _. frame_step. intros _ _ i Hi.
  by apply list_elem_of_filter in Hi as [_ ?].
Qed.

Lemma calm_code_cons a acts :
  (forall e, a <> AThrow e) ->
  calm_code (a :: acts) = calm_action a && calm_code acts.
Proof. intros Ha. unfold calm_code. destruct a; try done. by destruct (Ha e). Qed.

Section CallbacksStep.
Context (b : nat) (emit_next : string -> option Obj -> M Value).
Hypothesis emit_next_bus : forall K name data, bus K b (emit_next name data).

Lemma bus_closeDropdown_in K dropdown :
  bus K b (closeDropdown_in emit_next dropdown).
Proof.
  unfold closeDropdown_in. bus_steps; auto.
  apply bus_classList_remove_active.
Qed.

Lemma bus_run_actions K ev acts :
  (K -> calm_code acts = true) -> bus K b (run_actions emit_next ev acts).
Proof.
  induction acts as [|a acts IH]; intros HK; simpl; [bus_steps|].
  assert ((forall e, a <> AThrow e) ->
          K -> calm_action a = true /\ calm_code acts = true) as Hrest.
  { intros Ha k. specialize (HK k). rewrite calm_code_cons in HK by done.
    by apply andb_true_iff in HK. }
  destruct a as [name h|name h|name data| |e].
  - apply bus_bind; [apply bus_on|intros _].
    apply IH. intros k. by apply Hrest.
  - apply bus_bind; [|intros _].
    + apply bus_off. intros k. by destruct (Hrest ltac:(done) k).
    + apply IH. intros k. by apply Hrest.
  - apply bus_bind; [apply emit_next_bus|intros _].
    apply IH. intros k. by apply Hrest.
  - apply bus_bind; [|intros _].
    + apply bus_stopImmediatePropagation. intros k.
      by destruct (Hrest ltac:(done) k).
    + apply IH. intros k. by apply Hrest.
  - apply bus_throw.
Qed.

(** The body of a callback, guarded by the calm of its own call. *)
Lemma bus_call_callback K cb ev w :
  quiet b w ->
  bus_step (K /\ calm (host w) (call_of ev cb) = true) b w
    (world_of (call_callback emit_next cb ev w)).
Proof.
  intros Hw. destruct cb; simpl.
  - apply bus_run_actions; [|done]. by intros [_ ?].
  - by apply bus_modify_el.
  - reflexivity.
  - by apply bus_closeDropdown_in.
Qed.

Lemma bus_call_listener K ev l w :
  b <= ev_id ev -> quiet b w ->
  bus_step K b w (call_listener (call_callback emit_next) ev l w).
Proof.
  intros Hb Hw. unfold call_listener. destruct (decide _); [|reflexivity].
  set (w1 := record_call (dl_callback l) ev w).
  pose proof (bus_call_callback K (dl_callback l) ev w1 Hw) as H2.
  set (w2 := match call_callback emit_next (dl_callback l) ev w1 with
             | Ok _ w' => w'
             | Throw e w' => report e w'
             end).
  assert (bus_step (K /\ calm (host w) (call_of ev (dl_callback l)) = true)
            b w1 w2) as H12.
  { subst w2. destruct (call_callback _ _ _ _); simpl in H2; [done|].
    etransitivity; [exact H2|]. apply bus_report. }
  clearbody w2. clear H2.
  destruct H12 as [H N (d & E & F) R ? ? ? ? ? ? ? ? D Kp G].
  rewrite (new_calls_app _ _ _ E) in Kp, G.
  assert (trace w2 = trace w ++ call_of ev (dl_callback l) :: d) as E'.
  { rewrite E. simpl. by rewrite <- app_assoc. }
  split; try done.
  - exists (call_of ev (dl_callback l) :: d). split; [done|]. by constructor.
  - rewrite (new_calls_app _ _ _ E').
    intros k [C1 C2]%Forall_cons l' Hl'. by apply Kp.
  - rewrite (new_calls_app _ _ _ E').
    intros k [C1 C2]%Forall_cons i Hi. by apply G.
Qed.

Lemma bus_call_listeners K ev ls w :
  b <= ev_id ev -> quiet b w ->
  bus_step K b w (call_listeners (call_callback emit_next) ev ls w).
Proof.
  intros Hb. revert w. induction ls as [|l ls IH]; intros w Hw; simpl.
  - reflexivity.
  - pose proof (bus_call_listener K ev l w Hb Hw) as H1.
    destruct (decide _); [done|].
    etransitivity; [exact H1|]. apply IH. by eapply quiet_stable.
Qed.
End CallbacksStep.

Lemma bus_emit K b depth name data : bus K b (emit depth name data).
Proof.
  revert K name data. induction depth as [|d IH]; intros K name data; simpl.
  - apply bus_throw.
  - apply bus_bind; [apply bus_Date_now|intros now].
    intros w Hw.
    unfold bind, new_CustomEvent, fresh, modify, ret, document_dispatchEvent.
    simpl.
    set (w1 := set_stopped _ (set_next_id _ w)).
    assert (bus_step K b w w1) as H1.
    { frame_step. intros _ _ i Hi. by apply list_elem_of_filter in Hi as [_ ?]. }
    etransitivity; [exact H1|].
    apply bus_call_listeners; [by intros; apply IH|exact Hw|].
    by eapply quiet_stable.
Qed.

(** * The calls made by one dispatch *)

Lemma calls_with_later id t :
  Forall (fun i => S id <= ev_id (inv_event i)) t -> calls_with id t = [].
Proof.
  unfold calls_with. induction 1 as [|i t Hi _ IH]; [done|].
  rewrite filter_cons_False by lia. done.
Qed.

Lemma calls_with_app id t1 t2 :
  calls_with id (t1 ++ t2) = calls_with id t1 ++ calls_with id t2.
Proof. apply filter_app. Qed.

Section TopLevel.
Context (emit_next : string -> option Obj -> M Value).
Hypothesis emit_next_bus : forall K b name data, bus K b (emit_next name data).

Lemma called_in_turn_sublist call ev ls w :
  called_in_turn call ev ls w `sublist_of` ls.
Proof.
  revert w. induction ls as [|l ls IH]; intros w; simpl; [done|].
  destruct (decide (dl_id l ∈ _)); destruct (decide (ev_id ev ∈ _)); simpl.
  - apply sublist_skip, sublist_nil_l.
  - by apply sublist_skip.
  - apply sublist_nil_l.
  - by apply sublist_cons.
Qed.

(** One call: the trace gains the call itself and then calls made with
    later events only. *)
Lemma call_listener_calls ev l w :
  ev_id ev < next_id w -> dl_id l ∈ dl_id <$> doc_listeners w ->
  exists d,
    trace (call_listener (call_callback emit_next) ev l w)
    = trace w ++ call_of ev (dl_callback l) :: d
    /\ Forall (fun i => S (ev_id ev) <= ev_id (inv_event i)) d
    /\ host (call_listener (call_callback emit_next) ev l w) = host w
    /\ next_id w <= next_id (call_listener (call_callback emit_next) ev l w)
    /\ (calm_calls (host w) (call_of ev (dl_callback l) :: d) ->
        (forall l', l' ∈ doc_listeners w ->
           l' ∈ doc_listeners (call_listener (call_callback emit_next) ev l w))
        /\ (forall i, i ∈ stopped (call_listener (call_callback emit_next) ev l w) ->
                     i ∈ stopped w)).
Proof.
  intros Hid Hin. unfold call_listener. rewrite decide_True by done.
  set (w1 := record_call (dl_callback l) ev w).
  assert (quiet (S (ev_id ev)) w1) as Hq1 by (unfold quiet; simpl; lia).
  pose proof (bus_call_callback (S (ev_id ev)) emit_next
                (fun K => emit_next_bus K _) True (dl_callback l) ev w1 Hq1)
    as H2.
  set (w2 := match call_callback emit_next (dl_callback l) ev w1 with
             | Ok _ w' => w'
             | Throw e w' => report e w'
             end).
  assert (bus_step (True /\ calm (host w) (call_of ev (dl_callback l)) = true)
            (S (ev_id ev)) w1 w2) as H12.
  { subst w2. destruct (call_callback _ _ _ _); simpl in H2; [done|].
    etransitivity; [exact H2|]. apply bus_report. }
  clearbody w2. clear H2.
  destruct H12 as [H N (d & E & F) _ _ _ _ _ _ _ _ _ _ Kp G].
  rewrite (new_calls_app _ _ _ E) in Kp, G.
  exists d. split; [|split; [done|split; [done|split; [done|]]]].
  { rewrite E. simpl. by rewrite <- app_assoc. }
  intros [C1 C2]%Forall_cons. split.
  - intros l' Hl'. by apply Kp.
  - intros i Hi. by apply G.
Qed.

Lemma call_listener_skipped call ev l w :
  dl_id l ∉ dl_id <$> doc_listeners w -> call_listener call ev l w = w.
Proof. intros H. unfold call_listener. by rewrite decide_False. Qed.

Lemma call_listeners_calls ev ls w :
  ev_id ev < next_id w ->
  exists delta,
    trace (call_listeners (call_callback emit_next) ev ls w) = trace w ++ delta
    /\ calls_with (ev_id ev) delta
       = call_of ev
           <$> (dl_callback <$> called_in_turn (call_callback emit_next) ev ls w)
    /\ (calm_calls (host w) delta -> ev_id ev ∉ stopped w ->
        (forall l, l ∈ ls -> l ∈ doc_listeners w) ->
        called_in_turn (call_callback emit_next) ev ls w = ls).
Proof.
  revert w. induction ls as [|l ls IH]; intros w Hid; simpl.
  { exists []. rewrite app_nil_r. done. }
  destruct (decide (dl_id l ∈ dl_id <$> doc_listeners w)) as [Hin|Hout].
  - destruct (call_listener_calls ev l w Hid Hin) as (d & E & F & Hh & Hn & Hc).
    set (w2 := call_listener (call_callback emit_next) ev l w) in *.
    destruct (decide (ev_id ev ∈ stopped w2)) as [Hs|Hs].
    + exists (call_of ev (dl_callback l) :: d). split; [done|]. split.
      * unfold calls_with at 1. rewrite filter_cons_True by done.
        fold (calls_with (ev_id ev) d). by rewrite (calls_with_later _ d F).
      * intros C Hns _. destruct (Hc C) as [_ G]. by destruct (Hns (G _ Hs)).
    + destruct (IH w2) as (delta & E2 & C2 & A2); [lia|].
      exists (call_of ev (dl_callback l) :: d ++ delta). split; [|split].
      * rewrite E2, E. simpl. by rewrite <- !app_assoc.
      * unfold calls_with at 1. rewrite filter_cons_True by done.
        fold (calls_with (ev_id ev) (d ++ delta)).
        rewrite calls_with_app, (calls_with_later _ d F), C2. done.
      * intros C Hns Hall.
        rewrite app_comm_cons in C. apply Forall_app in C as [C1 C3].
        destruct (Hc C1) as [Kp G]. simpl. f_equal. apply A2.
        -- by rewrite Hh.
        -- done.
        -- intros l' Hl'. apply Kp, Hall. by right.
  - rewrite (call_listener_skipped _ _ _ _ Hout).
    destruct (decide (ev_id ev ∈ stopped w)) as [Hs|Hs].
    + exists []. rewrite app_nil_r. split; [done|]. split; [done|].
      by intros _ Hns.
    + destruct (IH w Hid) as (delta & E & C & A).
      exists delta. split; [done|]. split; [done|].
      intros _ _ Hall. exfalso. apply Hout.
      apply list_elem_of_fmap. exists l. split; [done|]. apply Hall. by left.
Qed.
End TopLevel.

Lemma emit_unfold depth name data w :
  emit (S depth) name data w
  = Ok VThis (call_listeners (call_callback (emit depth))
                (the_event name data w) (subscribers name w)
                (dispatch_start w)).
Proof. reflexivity. Qed.

Lemma emit_calls_exact depth name data w :
  exists w' delta,
    emit (S depth) name data w = Ok VThis w'
    /\ trace w' = trace w ++ delta
    /\ calls_with (next_id w) delta
       = call_of (the_event name data w)
           <$> (dl_callback
                  <$> called_in_turn (call_callback (emit depth))
                        (the_event name data w) (subscribers name w)
                        (dispatch_start w))
    /\ (calm_calls (host w) delta ->
        called_in_turn (call_callback (emit depth))
          (the_event name data w) (subscribers name w) (dispatch_start w)
        = subscribers name w).
Proof.
  rewrite emit_unfold.
  destruct (call_listeners_calls (emit depth) (fun K b => bus_emit K b depth)
              (the_event name data w) (subscribers name w) (dispatch_start w))
    as (delta & E & C & A).
  { simpl. lia. }
  eexists _, delta. split; [reflexivity|].
  split; [exact E|]. split; [exact C|].
  intros Hc. apply A; [done| |].
  - simpl. intros Hin. by apply list_elem_of_filter in Hin as [? _].
  - intros l Hl. apply list_elem_of_filter in Hl. apply Hl.
Qed.

Lemma emit_calls depth name data w :
  exists w' delta invoked,
    emit (S depth) name data w = Ok VThis w'
    /\ trace w' = trace w ++ delta
    /\ calls_with (next_id w) delta = call_of (the_event name data w) <$> invoked
    /\ invoked `sublist_of` (dl_callback <$> subscribers name w)
    /\ (calm_calls (host w) delta ->
        invoked = dl_callback <$> subscribers name w).
Proof.
  destruct (emit_calls_exact depth name data w) as (w' & delta & E & T & C & A).
  exists w', delta. eexists. split; [exact E|]. split; [exact T|].
  split; [exact C|]. split.
  - apply fmap_sublist, called_in_turn_sublist.
  - intros k. by rewrite (A k).
Qed.

(** * Theorems on the event system *)

Lemma delivered_call_of ev (cbs : list DocCallback) :
  inv_callback <$> (call_of ev <$> cbs) = cbs.
Proof. induction cbs as [|cb cbs IH]; [done|]. rewrite !fmap_cons, IH. done. Qed.

Lemma emit_allocates depth name data w :
  next_id w < next_id (world_of (emit (S depth) name data w)).
Proof.
  rewrite emit_unfold. simpl.
  eapply Nat.lt_le_trans;
    [|apply (bs_next False 0), (bus_call_listeners 0 (emit depth))].
  - simpl. lia.
  - intros. apply bus_emit.
  - lia.
  - unfold quiet. lia.
Qed.

(** C2 (amended).  [emit] returns after calling, in registration order,
    exactly the callbacks that were subscribed to the name when it was
    called, are still subscribed when their turn comes, and whose turn comes
    before a handler has stopped the event: never one subscribed during the
    dispatch, and all of them when no handler called during the dispatch
    unsubscribes or stops the event.  A later [on] adds no call, and no
    later dispatch carries the same event again. *)
Theorem emit_delivers_to_snapshot :
  forall depth name data w,
  exists w',
    emit (S depth) name data w = Ok VThis w'
    /\ delivered (next_id w) (new_calls w w')
       = dl_callback
           <$> called_in_turn (call_callback (emit depth))
                 (the_event name data w) (subscribers name w)
                 (dispatch_start w)
    /\ delivered (next_id w) (new_calls w w')
         `sublist_of` (dl_callback <$> subscribers name w)
    /\ (calm_calls (host w) (new_calls w w') ->
        delivered (next_id w) (new_calls w w')
          = dl_callback <$> subscribers name w)
    /\ forall cb depth' name' data',
         new_calls w' (world_of (on name cb w')) = []
         /\ delivered (next_id w)
              (new_calls w' (world_of (emit depth' name' data'
                                         (world_of (on name cb w'))))) = [].
Proof.
  intros depth name data w.
  destruct (emit_calls_exact depth name data w) as (w' & delta & E & T & C & A).
  exists w'. split; [done|].
  rewrite (new_calls_app _ _ _ T). unfold delivered. rewrite C, delivered_call_of.
  split; [done|]. split; [apply fmap_sublist, called_in_turn_sublist|]. split.
  - intros Hc. by rewrite (A Hc).
  - intros cb depth' name' data'.
    set (w1 := world_of (on name cb w')).
    set (w2 := world_of (emit depth' name' data' w1)).
    assert (next_id w < next_id w') as Hlt.
    { pose proof (emit_allocates depth name data w) as H. by rewrite E in H. }
    assert (quiet (S (next_id w)) w') as Hq by (unfold quiet; lia).
    pose proof (bus_on False (S (next_id w)) name cb w' Hq) as H1. fold w1 in H1.
    pose proof (bus_emit False (S (next_id w)) depth' name' data' w1
                  (quiet_stable _ _ _ _ Hq H1)) as H2. fold w2 in H2.
    split.
    + subst w1. unfold on, bind, document_addEventListener.
      destruct (decide _); simpl; unfold new_calls; simpl; by rewrite drop_all.
    + assert (bus_step False (S (next_id w)) w' w2) as H3 by (by etransitivity).
      destruct H3 as [_ _ (d & Ed & Fd) _ _ _ _ _ _ _ _ _ _ _ _].
      rewrite (new_calls_app _ _ _ Ed).
      by rewrite (calls_with_later _ _ Fd).
Qed.

(** C2, as stated, fails: handler 1 cancels handler 2 during the dispatch,
    so handler 2, subscribed before the publish began, is not called. *)
Lemma emit_skips_cancelled_subscriber :
  dl_callback <$> subscribers "x:changed" cancelling_world
    = [Page 1; Page 2; Page 3]
  /\ delivered (next_id cancelling_world)
       (new_calls cancelling_world
          (world_of (emit 1 "x:changed" None cancelling_world)))
     = [Page 1; Page 3].
Proof. vm_compute. done. Qed.

Lemma abc_world_calm t : calm_calls (host abc_world) t.
Proof.
  apply Forall_forall. intros [cb ev] _. unfold calm. simpl.
  destruct cb as [h| | |]; [|done..]. unfold abc_code.
  by destruct h as [|[|[|h]]].
Qed.

Lemma emit_delivers_to_snapshot_witness :
  exists w',
    emit 1 "x:changed" None abc_world = Ok VThis w'
    /\ calm_calls (host abc_world) (new_calls abc_world w')
    /\ delivered (next_id abc_world) (new_calls abc_world w')
       = [Page 1; Page 2; Page 3].
Proof.
  destruct (emit_delivers_to_snapshot 0 "x:changed" None abc_world)
    as (w' & E & _ & _ & A & _).
  exists w'. split; [exact E|]. split; [apply abc_world_calm|].
  rewrite (A (abc_world_calm _)). reflexivity.
Defined.

(** ** The listener list stays free of duplicates *)

#[global] Instance keeps_distinct_refl : Reflexive keeps_distinct.
Proof. intros w H. exact H. Qed.

#[global] Instance keeps_distinct_trans : Transitive keeps_distinct.
Proof. intros w1 w2 w3 H1 H2 H. apply H2, H1, H. Qed.

Lemma distinct_kept_bind {A B} (c : M A) (k : A -> M B) :
  distinct_kept c -> (forall a, distinct_kept (k a)) -> distinct_kept (bind c k).
Proof. apply preserves_bind; [apply _|done]. Qed.

Lemma distinct_kept_same {A} (c : M A) :
  (forall w, doc_listeners (world_of (c w)) = doc_listeners w) -> distinct_kept c.
Proof. intros H w _. unfold keeps_distinct, distinct_listeners. by rewrite H. Qed.

Lemma remove_first_sublist {A} (P : A -> Prop) `{!forall x, Decision (P x)}
    (l : list A) :
  remove_first P l `sublist_of` l.
Proof.
  induction l as [|x l IH]; simpl; [done|].
  destruct (decide (P x)); [by apply sublist_cons|by apply sublist_skip].
Qed.

Lemma distinct_kept_document_addEventListener type cb :
  distinct_kept (document_addEventListener type cb).
Proof.
  intros w _ Hd. unfold document_addEventListener.
  destruct (decide _) as [|Hnew]; [done|].
  unfold distinct_listeners in *. simpl. rewrite fmap_app. simpl.
  apply NoDup_app. split; [done|]. split; [|apply NoDup_singleton].
  intros key Hkey ->%list_elem_of_singleton.
  apply Hnew. apply list_elem_of_fmap in Hkey as (l & [= Ht Hc] & Hl).
  apply Exists_exists. exists l. by split.
Qed.

Lemma distinct_kept_document_removeEventListener type cb :
  distinct_kept (document_removeEventListener type cb).
Proof.
  intros w _ Hd. unfold distinct_listeners in *. simpl.
  eapply sublist_NoDup; [exact Hd|]. apply fmap_sublist, remove_first_sublist.
Qed.

Lemma distinct_kept_on name cb : distinct_kept (on name cb).
Proof.
  unfold on. apply distinct_kept_bind; [|intros _; by apply distinct_kept_same].
  apply distinct_kept_document_addEventListener.
Qed.

Lemma distinct_kept_off name cb : distinct_kept (off name cb).
Proof.
  unfold off. apply distinct_kept_bind; [|intros _; by apply distinct_kept_same].
  apply distinct_kept_document_removeEventListener.
Qed.

Section DistinctCallbacks.
Context (emit_next : string -> option Obj -> M Value).
Hypothesis emit_next_kept : forall name data, distinct_kept (emit_next name data).

Lemma distinct_kept_run_actions ev acts :
  distinct_kept (run_actions emit_next ev acts).
Proof.
  induction acts as [|a acts IH]; simpl; [by apply distinct_kept_same|].
  destruct a.
  - apply distinct_kept_bind; [apply distinct_kept_on|done].
  - apply distinct_kept_bind; [apply distinct_kept_off|done].
  - apply distinct_kept_bind; [apply emit_next_kept|done].
  - apply distinct_kept_bind; [by apply distinct_kept_same|done].
  - by apply distinct_kept_same.
Qed.

Lemma distinct_kept_call_callback cb ev :
  distinct_kept (call_callback emit_next cb ev).
Proof.
  destruct cb; simpl.
  - intros w Hw. by apply distinct_kept_run_actions.
  - by apply distinct_kept_same.
  - by apply distinct_kept_same.
  - unfold closeDropdown_in.
    apply distinct_kept_bind; [by apply distinct_kept_same|intros _].
    apply distinct_kept_bind; [apply emit_next_kept|intros _].
    by apply distinct_kept_same.
Qed.

Lemma distinct_kept_call_listeners ev ls w :
  keeps_distinct w (call_listeners (call_callback emit_next) ev ls w).
Proof.
  revert w. induction ls as [|l ls IH]; intros w; simpl; [done|].
  assert (keeps_distinct w (call_listener (call_callback emit_next) ev l w))
    as H1.
  { unfold call_listener. destruct (decide _); [|done].
    pose proof (distinct_kept_call_callback (dl_callback l) ev
                  (record_call (dl_callback l) ev w) I) as H.
    destruct (call_callback _ _ _ _); simpl in H; exact H. }
  destruct (decide _); [done|].
  etransitivity; [exact H1|apply IH].
Qed.
End DistinctCallbacks.

Lemma distinct_kept_emit depth name data : distinct_kept (emit depth name data).
Proof.
  revert name data. induction depth as [|d IH]; intros name data; simpl.
  - by apply distinct_kept_same.
  - intros w _.
    unfold bind, Date_now, new_CustomEvent, fresh, modify,
      document_dispatchEvent, ret. simpl.
    intros Hd. by apply (distinct_kept_call_listeners (emit d) IH).
Qed.

Lemma loaded_distinct h d : distinct_listeners (loaded h d).
Proof. apply NoDup_nil_2. Qed.

(** ** Subscribing and unsubscribing *)

Lemma filter_all {A} (P : A -> Prop) `{!forall x, Decision (P x)} (l : list A) :
  Forall P l -> filter P l = l.
Proof.
  induction 1 as [|x l Hx _ IH]; [done|].
  by rewrite filter_cons_True, IH.
Qed.

Lemma remove_first_distinct name cb (ls : list DocListener) :
  NoDup ((fun l => (dl_type l, dl_callback l)) <$> ls) ->
  remove_first (listens name cb) ls = filter (fun l => ~ listens name cb l) ls.
Proof.
  induction ls as [|l ls IH]; intros Hnd; [done|].
  rewrite fmap_cons in Hnd. apply NoDup_cons in Hnd as [Hl Hnd]. simpl.
  destruct (decide (listens name cb l)) as [Hy|Hn].
  - rewrite filter_cons_False by tauto.
    symmetry. apply filter_all, Forall_forall.
    intros l' Hl' [Ht Hc]. apply Hl. apply list_elem_of_fmap.
    exists l'. split; [|done]. destruct Hy as [-> ->]. by rewrite Ht, Hc.
  - rewrite filter_cons_True by done. by rewrite IH.
Qed.

(** C3 (amended).  [on] returns the framework instance itself; the matching
    [off] removes the one listener registered for that name and callback and
    nothing else, a second [off] changes nothing and raises nothing, and a
    publish made after it never calls the callback. *)
Theorem off_cancels_subscription :
  forall name cb w,
  distinct_listeners w ->
  (exists w1, on name cb w = Ok VThis w1
              /\ cb ∈ dl_callback <$> subscribers name w1)
  /\ exists w2,
       off name cb w = Ok VThis w2
       /\ doc_listeners w2 = filter (fun l => ~ listens name cb l) (doc_listeners w)
       /\ off name cb w2 = Ok VThis w2
       /\ forall depth data, exists w3,
            emit (S depth) name data w2 = Ok VThis w3
            /\ cb ∉ delivered (next_id w2) (new_calls w2 w3).
Proof.
  intros name cb w Hd. split.
  - unfold on, bind, document_addEventListener, subscribers.
    destruct (decide _) as [Hex|Hnot]; simpl.
    + eexists. split; [reflexivity|].
      apply Exists_exists in Hex as (l & Hl & Ht & Hc).
      apply list_elem_of_fmap. exists l. split; [done|].
      apply list_elem_of_filter. by split.
    + eexists. split; [reflexivity|]. simpl.
      apply list_elem_of_fmap.
      exists {| dl_id := next_id w; dl_type := name; dl_callback := cb |}.
      split; [done|]. apply list_elem_of_filter. split; [done|].
      apply elem_of_app. right. by apply list_elem_of_singleton.
  - assert (forall ls : list DocListener,
              remove_first (listens name cb)
                (filter (fun l => ~ listens name cb l) ls)
              = filter (fun l => ~ listens name cb l) ls) as Hidem.
    { intros ls. induction ls as [|l ls IH]; [done|].
      destruct (decide (listens name cb l)).
      - rewrite filter_cons_False by tauto. done.
      - rewrite filter_cons_True by done. simpl.
        destruct (decide (listens name cb l)); [done|]. by rewrite IH. }
    eexists. split; [reflexivity|]. simpl.
    rewrite (remove_first_distinct _ _ _ Hd).
    split; [done|]. split.
    { unfold off, bind, document_removeEventListener, modify, ret. simpl.
      unfold set_doc_listeners. simpl.
      rewrite (remove_first_distinct _ _ _ Hd), Hidem. done. }
    intros depth data.
    set (w2 := set_doc_listeners _ w).
    destruct (emit_calls depth name data w2)
      as (w3 & delta & inv & E & T & C & S1 & _).
    exists w3. split; [done|].
    rewrite (new_calls_app _ _ _ T). unfold delivered.
    change (next_id w) with (next_id w2).
    rewrite C, delivered_call_of. intros Hin.
    apply (sublist_subseteq _ _ S1) in Hin.
    apply list_elem_of_fmap in Hin as (l & -> & Hl).
    apply list_elem_of_filter in Hl as [Ht Hl]. subst w2. simpl in Hl.
    rewrite remove_first_distinct in Hl by apply Hd.
    apply list_elem_of_filter in Hl as [Hn _]. by apply Hn.
Qed.

Lemma abc_world_distinct : distinct_listeners abc_world.
Proof. apply (bool_decide_unpack _). vm_compute. done. Qed.

Lemma off_cancels_subscription_witness :
  distinct_listeners abc_world
  /\ exists w2,
       off "x:changed" (Page 2) abc_world = Ok VThis w2
       /\ dl_callback <$> doc_listeners w2 = [Page 1; Page 3]
       /\ off "x:changed" (Page 2) w2 = Ok VThis w2.
Proof.
  split; [exact abc_world_distinct|].
  destruct (off_cancels_subscription "x:changed" (Page 2) abc_world
              abc_world_distinct) as (_ & w2 & E & L & E2 & _).
  exists w2. split; [exact E|]. split; [|exact E2].
  rewrite L. vm_compute. reflexivity.
Defined.

(** C3, as stated, fails: what [on] returns is the framework instance, and
    the instance has no [cancel] member. *)
Lemma on_returns_instance_without_cancel :
  (exists w1, on "x:changed" (Page 1) (loaded (page_host abc_code true None) [])
              = Ok VThis w1)
  /\ has_member VThis "cancel" = false
  /\ has_member VThis "off" = true.
Proof. split; [eexists; reflexivity|]. split; vm_compute; reflexivity. Qed.

Section Reports.
Context (emit_next : string -> option Obj -> M Value).
Hypothesis emit_next_bus : forall K b name data, bus K b (emit_next name data).

Lemma call_listeners_reports ev ls w cb e :
  cb ∈ dl_callback <$> called_in_turn (call_callback emit_next) ev ls w ->
  (forall w0, host w0 = host w ->
     exists w1, call_callback emit_next cb ev w0 = Throw e w1) ->
  e ∈ reported (call_listeners (call_callback emit_next) ev ls w).
Proof.
  revert w. induction ls as [|l ls IH]; intros w Hcb Hthrow.
  { by apply elem_of_nil in Hcb. }
  simpl in *.
  pose proof (bus_call_listener 0 emit_next (fun K => emit_next_bus K 0)
                False ev l w (Nat.le_0_l _) (Nat.le_0_l _)) as H1.
  set (w2 := call_listener (call_callback emit_next) ev l w) in *.
  rewrite fmap_app in Hcb. apply elem_of_app in Hcb as [Hcb|Hcb].
  - assert (e ∈ reported w2) as Hin.
    { destruct (decide (dl_id l ∈ _)) as [Hl|]; [|by apply elem_of_nil in Hcb].
      apply list_elem_of_singleton in Hcb as ->.
      subst w2. unfold call_listener. rewrite decide_True by done.
      destruct (Hthrow (record_call (dl_callback l) ev w) eq_refl) as (w1 & ->).
      simpl. apply elem_of_app. right. by apply list_elem_of_singleton. }
    destruct (decide (ev_id ev ∈ stopped w2)); [done|].
    pose proof (bus_call_listeners 0 emit_next (fun K => emit_next_bus K 0)
                  False ev ls w2 (Nat.le_0_l _) (Nat.le_0_l _)) as H3.
    destruct H3 as [_ _ _ (r & ->) _ _ _ _ _ _ _ _ _ _ _].
    apply elem_of_app. by left.
  - destruct (decide (ev_id ev ∈ stopped w2)); [by apply elem_of_nil in Hcb|].
    apply IH; [done|]. intros w0 Hw0. apply Hthrow.
    rewrite Hw0. apply H1.
Qed.
End Reports.

(** C4 (amended).  An exception thrown by a handler does not end the
    dispatch and is reported by the browser: every subscriber of the name
    is called, in registration order, whichever of them throw, when no
    handler called during the dispatch unsubscribes a handler or stops the
    event; and the exception of every handler that is called and throws is
    reported. *)
Theorem throwing_handler_is_isolated :
  forall depth name data w,
  exists w',
    emit (S depth) name data w = Ok VThis w'
    /\ (calm_calls (host w) (new_calls w w') ->
        delivered (next_id w) (new_calls w w')
        = dl_callback <$> subscribers name w)
    /\ forall cb e,
         cb ∈ delivered (next_id w) (new_calls w w') ->
         (forall w0, host w0 = host w ->
            exists w1, call_callback (emit depth) cb (the_event name data w) w0
                       = Throw e w1) ->
         e ∈ reported w'.
Proof.
  intros depth name data w.
  destruct (emit_calls_exact depth name data w) as (w' & delta & E & T & C & A).
  exists w'. split; [done|].
  rewrite (new_calls_app _ _ _ T). unfold delivered. rewrite C, delivered_call_of.
  split.
  - intros Hc. by rewrite (A Hc).
  - intros cb e Hcb Hthrow.
    rewrite emit_unfold in E. injection E as <-.
    apply call_listeners_reports with (cb := cb).
    + intros. apply bus_emit.
    + done.
    + intros w0 Hw0. apply Hthrow. done.
Qed.

Lemma throwing_handler_is_isolated_witness :
  dl_callback <$> subscribers "x:changed" abc_world = [Page 1; Page 2; Page 3]
  /\ exists w',
       emit 1 "x:changed" None abc_world = Ok VThis w'
       /\ calm_calls (host abc_world) (new_calls abc_world w')
       /\ delivered (next_id abc_world) (new_calls abc_world w')
          = [Page 1; Page 2; Page 3]
       /\ PageError "B failed" ∈ reported w'.
Proof.
  split; [reflexivity|].
  destruct (throwing_handler_is_isolated 0 "x:changed" None abc_world)
    as (w' & E & D & R).
  exists w'. split; [exact E|]. split; [apply abc_world_calm|].
  pose proof (D (abc_world_calm _)) as D'. split; [exact D'|].
  apply (R (Page 2)).
  - rewrite D'. vm_compute. right. left.
  - intros w0 Hw0. simpl. rewrite Hw0. simpl. eexists. reflexivity.
Defined.

(** C4, as stated, fails: B throws, but before that it unsubscribes C (in
    the first page) or stops the event (in the second), and C does not
    observe the event.  B's exception is reported in both. *)
Lemma throwing_handler_can_silence_the_next :
  dl_callback <$> subscribers "x:changed" unsubscribing_world
    = [Page 1; Page 2; Page 3]
  /\ delivered (next_id unsubscribing_world)
       (new_calls unsubscribing_world
          (world_of (emit 1 "x:changed" None unsubscribing_world)))
     = [Page 1; Page 2]
  /\ reported (world_of (emit 1 "x:changed" None unsubscribing_world))
     = [PageError "B failed"]
  /\ dl_callback <$> subscribers "x:changed" stopping_world
     = [Page 1; Page 2; Page 3]
  /\ delivered (next_id stopping_world)
       (new_calls stopping_world
          (world_of (emit 1 "x:changed" None stopping_world)))
     = [Page 1; Page 2]
  /\ reported (world_of (emit 1 "x:changed" None stopping_world))
     = [PageError "B failed"].
Proof. vm_compute. done. Qed.

Lemma emit_calls_event depth name data w :
  exists w',
    emit (S depth) name data w = Ok VThis w'
    /\ forall i, i ∈ calls_with (next_id w) (new_calls w w') ->
         inv_event i = the_event name data w.
Proof.
  destruct (emit_calls depth name data w)
    as (w' & delta & inv & E & T & C & _ & _).
  exists w'. split; [done|]. intros i.
  rewrite (new_calls_app _ _ _ T), C.
  intros (cb & -> & _)%list_elem_of_fmap. done.
Qed.

(** C7 (amended).  Every call made for a publish receives the caller's
    payload with each key other than "timestamp" unchanged, and a numeric
    "timestamp". *)
Theorem emit_keeps_payload_keys :
  forall depth name data w,
  exists w',
    emit (S depth) name data w = Ok VThis w'
    /\ forall i, i ∈ calls_with (next_id w) (new_calls w w') ->
         (forall k, k <> "timestamp" ->
            ev_detail (inv_event i) !! k = default ∅ data !! k)
         /\ exists n, ev_detail (inv_event i) !! "timestamp" = Some (VNum n).
Proof.
  intros depth name data w.
  destruct (emit_calls_event depth name data w) as (w' & E & H).
  exists w'. split; [done|]. intros i Hi. rewrite (H i Hi). simpl. split.
  - intros k Hk. by rewrite lookup_insert_ne.
  - eexists. apply lookup_insert_eq.
Qed.

(** C7, as stated, fails: the caller's own "timestamp" does not reach the
    handlers with its value. *)
Lemma emit_drops_caller_timestamp :
  stamped_payload !! "timestamp" = Some (VStr "mine")
  /\ (fun i => ev_detail (inv_event i) !! "timestamp")
       <$> calls_with (next_id abc_world)
             (new_calls abc_world
                (world_of (emit 1 "x:changed" (Some stamped_payload) abc_world)))
     = [Some (VNum 1700000000000); Some (VNum 1700000000000);
        Some (VNum 1700000000000)].
Proof. split; vm_compute; reflexivity. Qed.

Lemma first_subscriber_is_called depth name data w l ls :
  subscribers name w = l :: ls ->
  exists w' rest,
    emit (S depth) name data w = Ok VThis w'
    /\ calls_with (next_id w) (new_calls w w')
       = call_of (the_event name data w) (dl_callback l) :: rest.
Proof.
  intros Hs.
  destruct (emit_calls_exact depth name data w)
    as (w' & delta & E & T & C & _).
  exists w'. rewrite (new_calls_app _ _ _ T), C, Hs. simpl.
  rewrite decide_True.
  - eexists. split; [done|]. rewrite !fmap_app, !fmap_cons. done.
  - apply list_elem_of_fmap. exists l. split; [done|].
    assert (l ∈ subscribers name w) as Hl by (rewrite Hs; by left).
    apply list_elem_of_filter in Hl. apply Hl.
Qed.

(** C10.  The detail every call receives is the payload with "timestamp"
    set to the clock reading taken by this [emit], whether or not the
    payload had that key; every other key passes through.  (The first
    subscriber of the name, if there is one, is always called.) *)
Theorem emit_timestamp_overrides :
  forall depth name data w,
  exists w',
    emit (S depth) name data w = Ok VThis w'
    /\ (forall l ls, subscribers name w = l :: ls ->
        exists i, i ∈ calls_with (next_id w) (new_calls w w')
                  /\ inv_callback i = dl_callback l)
    /\ forall i, i ∈ calls_with (next_id w) (new_calls w w') ->
         ev_type (inv_event i) = name
         /\ ev_detail (inv_event i)
            = <["timestamp" := VNum (clock (host w) (clock_reads w))]>
                (default ∅ data)
         /\ ev_detail (inv_event i) !! "timestamp"
            = Some (VNum (clock (host w) (clock_reads w)))
         /\ forall k, k <> "timestamp" ->
              ev_detail (inv_event i) !! k = default ∅ data !! k.
Proof.
  intros depth name data w.
  destruct (emit_calls_event depth name data w) as (w' & E & H).
  exists w'. split; [done|]. split.
  { intros l ls Hs.
    destruct (first_subscriber_is_called depth name data w l ls Hs)
      as (w'' & rest & E' & C).
    rewrite E in E'. injection E' as <-.
    eexists. rewrite C. split; [by left|done]. }
  intros i Hi. rewrite (H i Hi). simpl.
  split; [done|]. split; [done|]. split.
  - apply lookup_insert_eq.
  - intros k Hk. by rewrite lookup_insert_ne.
Qed.

(** * Theme preference *)

#[global] Instance storage_same_refl : Reflexive storage_same.
Proof. by intros w. Qed.

#[global] Instance storage_same_trans : Transitive storage_same.
Proof. intros w1 w2 w3 (?&?&?) (?&?&?). repeat split; congruence. Qed.

Lemma keeps_storage_bind {A B} (c : M A) (k : A -> M B) :
  keeps_storage c -> (forall a, keeps_storage (k a)) -> keeps_storage (bind c k).
Proof. apply preserves_bind; [apply _|done]. Qed.

Lemma keeps_storage_forEach {A} (f : A -> M unit) (l : list A) :
  (forall x, keeps_storage (f x)) -> keeps_storage (forEach f l).
Proof. apply preserves_forEach; [apply _|apply _|done]. Qed.

Ltac storage_steps :=
  repeat lazymatch goal with
    | |- keeps_storage (ret _) => apply preserves_ret, _
    | |- keeps_storage (get _) => apply preserves_get, _
    | |- keeps_storage (throw _) => apply preserves_throw, _
    | |- keeps_storage (bind _ _) => apply keeps_storage_bind; [|intros ?]
    | |- keeps_storage (forEach _ _) => apply keeps_storage_forEach; intros ?
    | |- keeps_storage (match ?x with _ => _ end) => destruct x
    | |- keeps_storage _ => by intros ? _
    end.

Lemma keeps_storage_documentElement : keeps_storage documentElement.
Proof. intros w _. unfold documentElement. by destruct (querySelector _ _). Qed.

Lemma keeps_storage_updateThemeIcon theme : keeps_storage (updateThemeIcon theme).
Proof. unfold updateThemeIcon. storage_steps. Qed.

Lemma keeps_storage_initTheme : keeps_storage initTheme.
Proof.
  unfold initTheme. storage_steps.
  - apply keeps_storage_documentElement.
  - apply keeps_storage_updateThemeIcon.
Qed.

Lemma bus_storage_same K b w w' : bus_step K b w w' -> storage_same w w'.
Proof. intros []. by repeat split. Qed.

Lemma keeps_storage_emit depth name data : keeps_storage (emit depth name data).
Proof.
  intros w _. apply (bus_storage_same False 0), bus_emit. unfold quiet. lia.
Qed.

Lemma setTheme_effect depth theme w html :
  querySelector (STag "html") (doc w) = Some html ->
  storage (world_of (setTheme depth theme w)) = <[theme_key := theme]> (storage w)
  /\ storage_log (world_of (setTheme depth theme w))
     = storage_log w ++ [SetItem theme_key theme]
  /\ this_theme (world_of (setTheme depth theme w)) = theme.
Proof.
  intros Hroot.
  set (w4 := set_storage (<[theme_key := theme]> (storage w))
               (storage_log w ++ [SetItem theme_key theme])
               (set_doc (update_element html (with_attr "data-theme" theme))
                  (set_this_theme theme w))).
  set (tail := updateThemeIcon theme ;;
               emit depth "easycss:theme-changed" (Some {["theme" := VStr theme]}) ;;
               ret tt).
  assert (setTheme depth theme w = tail w4) as ->.
  { unfold setTheme, bind at 1 2 3 4. unfold modify at 1, documentElement. simpl.
    rewrite Hroot. reflexivity. }
  assert (keeps_storage tail) as Ht.
  { subst tail. storage_steps.
    - apply keeps_storage_updateThemeIcon.
    - apply keeps_storage_emit. }
  destruct (Ht w4 I) as (E1 & E2 & E3). rewrite E1, E2, E3. done.
Qed.

(** C9 (amended).  The constructor reads the one key once and takes light
    when the key is absent or empty; [initTheme] does not touch the store;
    [setTheme] and [toggleTheme] write the new theme to the same key; and a
    non-empty theme set before a reload is the theme after the next
    construction. *)
Theorem theme_preference_round_trip :
  (forall w,
      is_Some (querySelector (STag "html") (doc w)) ->
      exists w',
        constructor w = Ok tt w'
        /\ storage_log w' = storage_log w ++ [GetItem theme_key]
        /\ storage w' = storage w
        /\ this_theme w' = or_default (storage w !! theme_key) "light"
        /\ (storage w !! theme_key = None -> this_theme w' = "light"))
  /\ (forall w, storage_same w (world_of (initTheme w)))
  /\ (forall depth theme w,
        is_Some (querySelector (STag "html") (doc w)) ->
        storage (world_of (setTheme depth theme w)) !! theme_key = Some theme
        /\ storage_log (world_of (setTheme depth theme w))
           = storage_log w ++ [SetItem theme_key theme]
        /\ this_theme (world_of (setTheme depth theme w)) = theme
        /\ (theme <> "" ->
            this_theme (world_of (constructor (world_of (setTheme depth theme w))))
            = theme))
  /\ (forall depth w,
        is_Some (querySelector (STag "html") (doc w)) ->
        let flipped := if decide (this_theme w = "dark") then "light" else "dark" in
        storage (world_of (toggleTheme depth w)) !! theme_key = Some flipped
        /\ this_theme (world_of (toggleTheme depth w)) = flipped).
Proof.
  split; [|split; [|split]].
  - intros w [html Hroot]. unfold constructor, bind, documentElement. simpl.
    rewrite Hroot. eexists. split; [reflexivity|]. simpl. repeat split.
    intros ->. done.
  - intros w. by apply keeps_storage_initTheme.
  - intros depth theme w [html Hroot].
    destruct (setTheme_effect depth theme w html Hroot) as (E1 & E2 & E3).
    rewrite E1, E2, E3. rewrite lookup_insert_eq. repeat split.
    intros Hne. unfold constructor, bind, modify, localStorage_getItem. simpl.
    rewrite E1, lookup_insert_eq. simpl.
    destruct (decide (theme = "")); [done|].
    unfold documentElement. simpl.
    destruct (querySelector _ (doc (world_of _))); reflexivity.
  - intros depth w [html Hroot] flipped.
    unfold toggleTheme, bind, get.
    destruct (setTheme_effect depth flipped w html Hroot) as (E1 & E2 & E3).
    fold flipped. rewrite E1, E3. by rewrite lookup_insert_eq.
Qed.

Lemma theme_preference_round_trip_witness :
  is_Some (querySelector (STag "html") (doc skeleton_world))
  /\ "dark" <> ""
  /\ this_theme (world_of (constructor (world_of
        (setTheme 1 "dark" skeleton_world))))
     = "dark".
Proof.
  assert (is_Some (querySelector (STag "html")
            (doc skeleton_world))) as Hroot.
  { vm_compute. eexists. reflexivity. }
  split; [exact Hroot|]. split; [discriminate|].
  destruct theme_preference_round_trip as (_ & _ & H & _).
  destruct (H 1 "dark" _ Hroot) as (_ & _ & _ & R). apply R. discriminate.
Defined.

(** C9, as stated, fails for the empty theme: it is stored, but the next
    construction reads it back as light. *)
Lemma empty_theme_is_not_restored :
  storage (world_of (setTheme 1 "" skeleton_world))
    !! theme_key = Some ""
  /\ this_theme (world_of (constructor (world_of
        (setTheme 1 "" skeleton_world))))
     = "light".
Proof. split; vm_compute; reflexivity. Qed.

(** * Missing structure *)

(** Guards that are present: an unknown modal id and a dropdown without
    trigger or menu are skipped. *)
Lemma openModal_unknown_id depth modalId w :
  css_plain modalId = true ->
  querySelector (SAttrEq "data-modal" modalId) (doc w) = None ->
  openModal depth modalId w = Ok tt w.
Proof.
  intros Hp H. unfold openModal, bind, attribute_selector, get.
  by rewrite Hp, H.
Qed.

Lemma initDropdowns_skips_incomplete w dropdown :
  querySelectorAll (SHasAttr "data-dropdown") (doc w) = [dropdown] ->
  querySelectorIn dropdown (SHasAttr "data-dropdown-trigger") (doc w) = None
  \/ querySelectorIn dropdown (SClass "dropdown-menu") (doc w) = None ->
  initDropdowns w = Ok tt w.
Proof.
  intros Hd Hmissing. unfold initDropdowns, bind, get. rewrite Hd. simpl.
  unfold bind, get.
  destruct Hmissing as [-> | ->]; [done|].
  by destruct (querySelectorIn _ _ _).
Qed.

(** C6 fails on the code for the navbar toggle: a toggle with no [.navbar]
    ancestor makes its click listener throw instead of doing nothing. *)
Theorem navbar_toggle_outside_navbar_throws :
  forall depth toggle w,
  closest (SClass "navbar") (doc w) toggle = None ->
  navbarToggleClick depth toggle w = Throw navbar_null_error w.
Proof.
  intros depth toggle w H. unfold navbarToggleClick, bind, get. by rewrite H.
Qed.

Lemma navbar_toggle_outside_navbar_throws_witness :
  5 ∈ querySelectorAll (SHasAttr "data-navbar-toggle") (doc widget_world)
  /\ closest (SClass "navbar") (doc widget_world) 5 = None
  /\ navbarToggleClick 1 5 widget_world = Throw navbar_null_error widget_world.
Proof.
  split; [vm_compute; right; left|].
  split; [reflexivity|].
  apply (navbar_toggle_outside_navbar_throws 1 5 widget_world). reflexivity.
Defined.

Lemma widget_world_guards :
  openModal 1 "missing" widget_world = Ok tt widget_world
  /\ initDropdowns widget_world = Ok tt widget_world.
Proof.
  split.
  - by apply openModal_unknown_id.
  - by apply (initDropdowns_skips_incomplete _ 6); [|right].
Qed.

(** * Activation passes *)

Lemma forEach_app {A} (f : A -> M unit) (xs ys : list A) w w1 :
  forEach f xs w = Ok tt w1 -> forEach f (xs ++ ys) w = forEach f ys w1.
Proof.
  revert w. induction xs as [|x xs IH]; intros w; simpl.
  - unfold ret. by intros [= ->].
  - unfold bind. destruct (f x w) as [[] w'|e w']; [apply IH|discriminate].
Qed.

Lemma forEach_throw_here {A} (f : A -> M unit) (x : A) (ys : list A) w e w' :
  f x w = Throw e w' -> forEach f (x :: ys) w = Throw e w'.
Proof. intros H. simpl. unfold bind. by rewrite H. Qed.

Section Runs.
Context (P : World -> Prop) (R : relation World).
Context `{!Reflexive R} `{!Transitive R}.
Hypothesis stable : forall w w', P w -> R w w' -> P w'.

Lemma runs_ret {A} (a : A) : runs P R (ret a).
Proof. intros w _. by exists a, w. Qed.

Lemma runs_get {A} (f : World -> A) : runs P R (get f).
Proof. intros w _. by exists (f w), w. Qed.

Lemma runs_bind {A B} (c : M A) (k : A -> M B) :
  runs P R c -> (forall a, runs P R (k a)) -> runs P R (bind c k).
Proof.
  intros Hc Hk w Hw. destruct (Hc w Hw) as (a & w1 & E1 & R1).
  destruct (Hk a w1) as (b & w2 & E2 & R2); [by eapply stable|].
  exists b, w2. unfold bind. rewrite E1. split; [done|]. by etransitivity.
Qed.

Lemma runs_forEach {A} (f : A -> M unit) (l : list A) :
  (forall x, runs P R (f x)) -> runs P R (forEach f l).
Proof.
  intros Hf. induction l as [|x l IH]; simpl.
  - apply runs_ret.
  - apply runs_bind; [apply Hf|intros _; exact IH].
Qed.
End Runs.

#[global] Instance quiet_pass_refl t : Reflexive (quiet_pass t).
Proof. by intros w. Qed.

#[global] Instance quiet_pass_trans t : Transitive (quiet_pass t).
Proof. intros w1 w2 w3 [] []. split; [congruence|lia|auto|congruence]. Qed.

Lemma pass_bind t {A B} (c : M A) (k : A -> M B) :
  pass t c -> (forall a, pass t (k a)) -> pass t (bind c k).
Proof. apply runs_bind; [apply _|done]. Qed.

Lemma pass_forEach t {A} (f : A -> M unit) (l : list A) :
  (forall x, pass t (f x)) -> pass t (forEach f l).
Proof. apply runs_forEach; [apply _|apply _|done]. Qed.

Lemma fns_allocated_mono w w' :
  el_listeners w' = el_listeners w -> next_id w <= next_id w' ->
  fns_allocated w -> fns_allocated w'.
Proof.
  unfold fns_allocated. intros -> Hn Hf.
  eapply Forall_impl; [exact Hf|]. simpl. intros; lia.
Qed.

Lemma pass_fresh t : pass t fresh.
Proof.
  intros w _. eexists _, _. split; [reflexivity|].
  split; simpl; [done|lia| |done].
  apply fns_allocated_mono; simpl; [done|lia].
Qed.

Lemma pass_document_addEventListener t type cb :
  pass t (document_addEventListener type cb).
Proof.
  intros w _. unfold document_addEventListener.
  destruct (decide _); eexists _, _; (split; [reflexivity|]); [done|].
  split; simpl; [done|lia| |done].
  apply fns_allocated_mono; simpl; [done|lia].
Qed.

(** Adding a freshly created closure: the listener is new, so it is
    appended. *)
Lemma add_fresh_listener target type (mk : nat -> ElCallback) w :
  (forall fn, callback_fn (mk fn) = fn) ->
  fns_allocated w ->
  (fn <- fresh ;; addEventListener target type (mk fn)) w
  = Ok tt (set_el_listeners
             (fun ls => ls ++ [{| el_target := target; el_type := type;
                                  el_callback := mk (next_id w) |}])
             (set_next_id (S (next_id w)) w)).
Proof.
  intros Hmk Hf. unfold bind, fresh, addEventListener, modify. simpl.
  unfold set_el_listeners at 1. simpl.
  destruct (decide _) as [Hin|_]; [|done].
  exfalso. eapply Forall_forall in Hf; [|exact Hin]. simpl in Hf.
  rewrite Hmk in Hf. lia.
Qed.

Lemma fns_allocated_add target type (mk : nat -> ElCallback) w :
  (forall fn, callback_fn (mk fn) = fn) ->
  fns_allocated w ->
  fns_allocated (set_el_listeners
                   (fun ls => ls ++ [{| el_target := target; el_type := type;
                                        el_callback := mk (next_id w) |}])
                   (set_next_id (S (next_id w)) w)).
Proof.
  intros Hmk Hf. unfold fns_allocated. simpl. apply Forall_app. split.
  - eapply Forall_impl; [exact Hf|]. simpl. intros; lia.
  - apply Forall_singleton. simpl. rewrite Hmk. lia.
Qed.

Lemma pass_fresh_add t target type (mk : nat -> ElCallback) :
  (forall fn, callback_fn (mk fn) = fn) ->
  (forall fn, match mk fn with ModalTriggerClick _ _ => False | _ => True end) ->
  pass t (fn <- fresh ;; addEventListener target type (mk fn)).
Proof.
  intros Hmk Hother w _.
  unfold bind, fresh, addEventListener, modify. simpl.
  eexists _, _. split; [reflexivity|].
  assert (is_trigger_click t {| el_target := target; el_type := type;
                                el_callback := mk (next_id w) |} = false) as Hno.
  { unfold is_trigger_click. simpl. specialize (Hother (next_id w)).
    destruct (mk (next_id w)); try done; by rewrite andb_false_r. }
  split; simpl.
  - done.
  - lia.
  - intros Hf. unfold fns_allocated. simpl.
    destruct (decide _).
    + eapply Forall_impl; [exact Hf|]. simpl. intros; lia.
    + by apply (fns_allocated_add target type mk w).
  - unfold trigger_bindings. simpl. destruct (decide _); [done|].
    rewrite filter_app, filter_cons_False, filter_nil, app_nil_r; [done|].
    by rewrite Hno.
Qed.

Ltac pass_steps :=
  repeat lazymatch goal with
    | |- pass _ (bind fresh (fun fn => addEventListener _ _ _)) =>
        apply pass_fresh_add; [done|done]
    | |- pass _ (bind _ _) => apply pass_bind; [|intros ?]
    | |- pass _ (forEach _ _) => apply pass_forEach; intros ?
    | |- pass _ (match ?x with _ => _ end) => destruct x
    | |- pass _ (get _) => apply runs_get, _
    | |- pass _ (ret _) => apply runs_ret, _
    | |- pass _ fresh => apply pass_fresh
    | |- pass _ (document_addEventListener _ _) =>
        apply pass_document_addEventListener
    end.

Lemma bind_triggers t ts w :
  NoDup ts -> fns_allocated w ->
  exists w',
    forEach (fun trigger =>
      fn <- fresh ;;
      addEventListener trigger "click" (ModalTriggerClick fn trigger)) ts w
    = Ok tt w'
    /\ doc w' = doc w /\ fns_allocated w'
    /\ trigger_bindings t w'
       = trigger_bindings t w + (if decide (t ∈ ts) then 1 else 0).
Proof.
  revert w. induction ts as [|x ts IH]; intros w Hnd Hf.
  { exists w. split; [done|]. split; [done|]. split; [done|].
    destruct (decide _) as [H|_]; [by apply elem_of_nil in H|lia]. }
  apply NoDup_cons in Hnd as [Hx Hnd].
  simpl forEach. unfold bind at 1.
  rewrite (add_fresh_listener x "click" (fun fn => ModalTriggerClick fn x) w)
    by done.
  set (w1 := set_el_listeners _ _).
  destruct (IH w1 Hnd) as (w' & E & Hd & Hf' & Hc).
  { by apply (fns_allocated_add x "click" (fun fn => ModalTriggerClick fn x)). }
  exists w'. split; [done|]. split; [by rewrite Hd|]. split; [done|].
  rewrite Hc. unfold trigger_bindings. subst w1. simpl.
  rewrite filter_app, length_app.
  destruct (decide (x = t)) as [->|Hne].
  - rewrite filter_cons_True.
    2:{ unfold is_trigger_click. simpl. by rewrite !bool_decide_eq_true_2. }
    destruct (decide (t ∈ ts)) as [?|_]; [done|].
    destruct (decide (t ∈ t :: ts)) as [_|Hout]; [simpl; lia|].
    exfalso. apply Hout. by left.
  - rewrite filter_cons_False.
    2:{ unfold is_trigger_click. simpl.
        rewrite (bool_decide_eq_false_2 (x = t)) by done. done. }
    simpl. destruct (decide (t ∈ ts)) as [Hin|Hout].
    + destruct (decide (t ∈ x :: ts)) as [_|Hout]; [lia|].
      exfalso. apply Hout. by right.
    + destruct (decide (t ∈ x :: ts)) as [Hin|_]; [|lia].
      apply elem_of_cons in Hin as [?|?]; [congruence|done].
Qed.

Lemma querySelectorAll_NoDup s d :
  NoDup (e_id <$> d) -> NoDup (querySelectorAll s d).
Proof.
  intros H. eapply sublist_NoDup; [exact H|].
  unfold querySelectorAll. apply fmap_sublist, sublist_filter.
Qed.

Lemma initModals_pass t w :
  fns_allocated w -> NoDup (e_id <$> doc w) ->
  exists w',
    initModals w = Ok tt w'
    /\ doc w' = doc w /\ fns_allocated w'
    /\ trigger_bindings t w'
       = trigger_bindings t w
         + (if decide (t ∈ querySelectorAll (SHasAttr "data-modal-trigger") (doc w))
            then 1 else 0).
Proof.
  intros Hf Hnd. unfold initModals. unfold bind at 1 2 3. unfold get at 1 2.
  destruct (bind_triggers t
              (querySelectorAll (SHasAttr "data-modal-trigger") (doc w)) w)
    as (w1 & -> & Hd1 & Hf1 & Hc1); [by apply querySelectorAll_NoDup|done|].
  match goal with |- context [forEach ?f ?l w1] =>
    assert (pass t (forEach f l)) as Hp by pass_steps;
    destruct (Hp w1 I) as ([] & w2 & -> & [Hd2 _ Hf2 Hc2])
  end.
  exists w2. split; [done|]. split; [congruence|]. split; [auto|]. congruence.
Qed.

Lemma activate_pass t n w :
  fns_allocated w -> NoDup (e_id <$> doc w) ->
  doc (activate n w) = doc w /\ fns_allocated (activate n w)
  /\ trigger_bindings t (activate n w)
     = trigger_bindings t w
       + n * (if decide (t ∈ querySelectorAll (SHasAttr "data-modal-trigger") (doc w))
              then 1 else 0).
Proof.
  intros Hf Hnd.
  induction n as [|n (Hd & Hfn & Hc)]; [by simpl; rewrite Nat.add_0_r|].
  unfold activate in *. simpl Nat.iter.
  set (wn := Nat.iter n _ w) in *.
  destruct (initModals_pass t wn Hfn) as (w' & -> & Hd' & Hf' & Hc').
  { by rewrite Hd. }
  simpl. split; [congruence|]. split; [done|].
  rewrite Hc', Hc, Hd. simpl. lia.
Qed.

(** C1 (amended).  Nothing remembers that an element is bound: every pass
    of [initModals] attaches one more click listener to each element
    matching [data-modal-trigger], so after [n] passes it carries [n] of
    them (exactly one after the single pass made at start-up). *)
Theorem every_pass_binds_again :
  forall w t n,
  fns_allocated w -> NoDup (e_id <$> doc w) ->
  t ∈ querySelectorAll (SHasAttr "data-modal-trigger") (doc w) ->
  trigger_bindings t (activate n w) = trigger_bindings t w + n.
Proof.
  intros w t n Hf Hnd Ht.
  destruct (activate_pass t n w Hf Hnd) as (_ & _ & ->).
  destruct (decide _); [lia|done].
Qed.

Lemma widget_world_ids : NoDup (e_id <$> doc widget_world).
Proof. apply (bool_decide_unpack _). vm_compute. done. Qed.

Lemma every_pass_binds_again_witness :
  fns_allocated widget_world
  /\ NoDup (e_id <$> doc widget_world)
  /\ 8 ∈ querySelectorAll (SHasAttr "data-modal-trigger") (doc widget_world)
  /\ trigger_bindings 8 (activate 1 widget_world) = 1
  /\ trigger_bindings 8 (activate 3 widget_world) = 3.
Proof.
  assert (fns_allocated widget_world) as Hf by constructor.
  assert (8 ∈ querySelectorAll (SHasAttr "data-modal-trigger") (doc widget_world))
    as Ht by (vm_compute; left).
  split; [exact Hf|]. split; [exact widget_world_ids|]. split; [exact Ht|].
  split.
  - apply (every_pass_binds_again widget_world 8 1 Hf widget_world_ids Ht).
  - apply (every_pass_binds_again widget_world 8 3 Hf widget_world_ids Ht).
Defined.

(** C1, as stated, fails: a second pass over the same document attaches a
    second click listener to the already bound trigger. *)
Lemma second_pass_binds_twice :
  filter (fun l => el_target l = 8) (el_listeners (activate 2 widget_world))
  = [ {| el_target := 8; el_type := "click";
         el_callback := ModalTriggerClick 100 8 |};
      {| el_target := 8; el_type := "click";
         el_callback := ModalTriggerClick 104 8 |} ]
  /\ trigger_bindings 8 (activate 2 widget_world) = 2.
Proof. split; vm_compute; reflexivity. Qed.

(** * Exceptions during a pass *)

Lemma initAnimationTriggers_throws w x rest :
  has_IntersectionObserver (host w) = true ->
  matchMedia (host w) = None ->
  querySelectorAll (SClassContains "animate-") (doc w) = x :: rest ->
  initAnimationTriggers w
  = Throw matchMedia_error (set_next_id (S (next_id w)) w).
Proof.
  intros Hio Hmm Hq. unfold initAnimationTriggers, bind, get. rewrite Hio, Hq.
  simpl. unfold pause_and_observe, bind, get. simpl. by rewrite Hmm.
Qed.

#[global] Instance anything_refl : Reflexive anything.
Proof. done. Qed.

#[global] Instance anything_trans : Transitive anything.
Proof. done. Qed.

Lemma returns_bind {A B} (c : M A) (k : A -> M B) :
  returns c -> (forall a, returns (k a)) -> returns (bind c k).
Proof. apply runs_bind; [apply _|done]. Qed.

Lemma returns_forEach {A} (f : A -> M unit) (l : list A) :
  (forall x, returns (f x)) -> returns (forEach f l).
Proof. apply runs_forEach; [apply _|apply _|done]. Qed.

Lemma returns_total {A} (c : M A) :
  (forall w, exists a w', c w = Ok a w') -> returns c.
Proof. intros H w _. destruct (H w) as (a & w' & E). by exists a, w'. Qed.

Lemma returns_document_addEventListener type cb :
  returns (document_addEventListener type cb).
Proof.
  apply returns_total. intros w. unfold document_addEventListener.
  destruct (decide _); by eexists _, _.
Qed.

Ltac returns_steps :=
  repeat lazymatch goal with
    | |- returns (bind _ _) => apply returns_bind; [|intros ?]
    | |- returns (forEach _ _) => apply returns_forEach; intros ?
    | |- returns (match ?x with _ => _ end) => destruct x
    | |- returns (document_addEventListener _ _) =>
        apply returns_document_addEventListener
    | |- returns _ => apply returns_total; intros ?; by eexists _, _
    end.

Lemma returns_initDropdowns : returns initDropdowns.
Proof. unfold initDropdowns, positionDropdown. returns_steps. Qed.

Lemma initToasts_returns w :
  is_Some (querySelector (STag "body") (doc w))
  \/ is_Some (querySelector (SHasAttr "data-toast-container") (doc w)) ->
  exists w', initToasts w = Ok tt w'.
Proof.
  intros Hpage. unfold initToasts. unfold bind at 1 2. unfold get at 1.
  match goal with |- context [forEach ?f ?l w] =>
    assert (pass 0 (forEach f l)) as Hp by pass_steps;
    destruct (Hp w I) as ([] & w1 & -> & [Hd _ _ _])
  end.
  unfold bind, get. rewrite Hd.
  destruct (querySelector (SHasAttr _) (doc w)) as [c|] eqn:Hc; [by eexists|].
  destruct Hpage as [[body Hbody]|[c Hc']]; [|done].
  unfold fresh, document_body. simpl. rewrite Hd, Hbody. by eexists.
Qed.

(** C5 (amended).  No bind is guarded.  In [initAnimationTriggers], on a
    browser without [window.matchMedia], the bind of the first matched
    element throws and the exception leaves the initialiser: the world is
    left as it was but for the observer object that was created, so no
    matched element is paused or observed, nothing is reported or logged,
    and [this.observers] is not set.  The binds of [initDropdowns] and
    [initToasts] contain nothing that throws: [initDropdowns] always
    completes, and [initToasts] does on a document that has a body or
    already holds a toast container. *)
Theorem throwing_bind_aborts_pass :
  (forall w x rest,
     has_IntersectionObserver (host w) = true ->
     matchMedia (host w) = None ->
     querySelectorAll (SClassContains "animate-") (doc w) = x :: rest ->
     initAnimationTriggers w
     = Throw matchMedia_error (set_next_id (S (next_id w)) w))
  /\ (forall w, exists w', initDropdowns w = Ok tt w')
  /\ (forall w,
        is_Some (querySelector (STag "body") (doc w))
        \/ is_Some (querySelector (SHasAttr "data-toast-container") (doc w)) ->
        exists w', initToasts w = Ok tt w').
Proof.
  split; [|split].
  - apply initAnimationTriggers_throws.
  - intros w. destruct (returns_initDropdowns w I) as ([] & w' & E & _).
    by exists w'.
  - apply initToasts_returns.
Qed.

Lemma throwing_bind_aborts_pass_witness :
  has_IntersectionObserver (host animated_world) = true
  /\ matchMedia (host animated_world) = None
  /\ querySelectorAll (SClassContains "animate-") (doc animated_world) = [2; 3]
  /\ initAnimationTriggers animated_world
     = Throw matchMedia_error (set_next_id 101 animated_world).
Proof.
  split; [reflexivity|]. split; [reflexivity|]. split; [reflexivity|].
  destruct throwing_bind_aborts_pass as (H & _).
  apply (H animated_world 2 [3]); reflexivity.
Defined.

(** C5, as stated, fails: the bind of the first animated element throws,
    the exception leaves [initAnimationTriggers], and the second element is
    neither paused nor observed. *)
Lemma animation_pass_aborted_by_first_element :
  querySelectorAll (SClassContains "animate-") (doc animated_world) = [2; 3]
  /\ (exists w', initAnimationTriggers animated_world = Throw matchMedia_error w'
                 /\ observed w' = []
                 /\ (e_style <$> getElement 3 (doc w')) = Some []
                 /\ this_observers w' !! "animations" = None
                 /\ reported w' = []).
Proof.
  split; [reflexivity|]. eexists. split; [reflexivity|].
  repeat split; vm_compute; reflexivity.
Qed.

(** * Toasts *)

Lemma insert_after_last_new inside e d : e ∈ insert_after_last inside e d.
Proof.
  induction d as [|x d IH]; simpl; [by left|].
  destruct (existsb inside d); [by right|].
  destruct (inside x); [right; by left|by right].
Qed.

Lemma insert_after_last_old inside e d x :
  x ∈ d -> x ∈ insert_after_last inside e d.
Proof.
  induction d as [|y d IH]; [by intros ?%elem_of_nil|].
  intros [->|Hx]%elem_of_cons; simpl.
  - destruct (existsb inside d); [by left|]. destruct (inside y); by left.
  - destruct (existsb inside d); [right; auto|].
    destruct (inside y); right; [by right|auto].
Qed.

Lemma insert_after_last_elem inside e (d : Dom) x :
  x ∈ insert_after_last inside e d -> x = e \/ x ∈ d.
Proof.
  induction d as [|y d IH]; simpl.
  - intros ?%list_elem_of_singleton. by left.
  - destruct (existsb inside d).
    + intros [->|Hx]%elem_of_cons; [right; by left|].
      destruct (IH Hx); [by left|right; by right].
    + destruct (inside y).
      * intros [->|[->|Hx]%elem_of_cons]%elem_of_cons;
          [right; by left|by left|right; by right].
      * intros [->|Hx]%elem_of_cons; [right; by left|].
        destruct (IH Hx); [by left|right; by right].
Qed.

Lemma insert_after_last_filter (P : Element -> Prop)
    `{!forall e, Decision (P e)} inside e (d : Dom) :
  ~ P e -> filter P (insert_after_last inside e d) = filter P d.
Proof.
  intros Hn. unfold Dom. induction d as [|y d IH]; simpl.
  - by rewrite filter_cons_False.
  - destruct (existsb inside d).
    + by rewrite !(filter_cons _ y), IH.
    + destruct (inside y).
      * rewrite !(filter_cons _ y). by rewrite (filter_cons_False _ e).
      * by rewrite !(filter_cons _ y), IH.
Qed.

Lemma insert_after_last_only (P : Element -> Prop)
    `{!forall e, Decision (P e)} inside e (d : Dom) :
  P e -> filter P d = [] -> filter P (insert_after_last inside e d) = [e].
Proof.
  intros He. unfold Dom. induction d as [|y d IH]; simpl; intros Hd.
  - by rewrite filter_cons_True.
  - rewrite filter_cons in Hd. destruct (decide (P y)) as [|Hy]; [done|].
    destruct (existsb inside d).
    + rewrite filter_cons_False by done. by apply IH.
    + destruct (inside y).
      * rewrite filter_cons_False by done. by rewrite filter_cons_True, Hd.
      * rewrite filter_cons_False by done. by apply IH.
Qed.

Lemma insert_after_last_length inside e (d : Dom) :
  length (insert_after_last inside e d) = S (length d).
Proof.
  induction d as [|y d IH]; simpl; [done|].
  destruct (existsb inside d); simpl; [by rewrite IH|].
  destruct (inside y); simpl; [done|by rewrite IH].
Qed.

Lemma getElement_id id (d : Dom) e : getElement id d = Some e -> e_id e = id.
Proof.
  unfold getElement. intros H. apply head_Some_elem_of in H.
  by apply list_elem_of_filter in H as [? _].
Qed.

Lemma getElement_elem id (d : Dom) e : getElement id d = Some e -> e ∈ d.
Proof.
  unfold getElement. intros H. apply head_Some_elem_of in H.
  by apply list_elem_of_filter in H as [_ ?].
Qed.

Lemma getElement_unique (d : Dom) e :
  e ∈ d -> (forall e', e' ∈ d -> e_id e' = e_id e -> e' = e) ->
  getElement (e_id e) d = Some e.
Proof.
  intros He Hu. unfold getElement.
  destruct (filter (fun x => e_id x = e_id e) d) as [|x l] eqn:Hf.
  - assert (e ∈ filter (fun x => e_id x = e_id e) d) as Hin
        by (by apply list_elem_of_filter).
    rewrite Hf in Hin. by apply elem_of_nil in Hin.
  - simpl. f_equal.
    assert (x ∈ filter (fun x => e_id x = e_id e) d) as Hin
        by (rewrite Hf; by left).
    apply list_elem_of_filter in Hin as [Hi Hx]. by apply Hu.
Qed.

Lemma present_ids (d : Dom) x : present d x <-> x ∈ e_id <$> d.
Proof.
  unfold present, getElement. split.
  - intros [e He]. apply head_Some_elem_of in He.
    apply list_elem_of_filter in He as [<- He].
    apply list_elem_of_fmap. by exists e.
  - intros (e & -> & He)%list_elem_of_fmap.
    destruct (filter (fun x => e_id x = e_id e) d) as [|y l] eqn:Hf; [|by eexists].
    assert (e ∈ filter (fun x => e_id x = e_id e) d) as Hin
        by (by apply list_elem_of_filter).
    rewrite Hf in Hin. by apply elem_of_nil in Hin.
Qed.

Lemma same_tree_ids (d d' : Dom) : same_tree d d' -> e_id <$> d' = e_id <$> d.
Proof.
  induction 1 as [|e e' d d' [Hi _] _ IH]; [done|].
  by rewrite !fmap_cons, Hi, IH.
Qed.

Lemma getElement_same_tree id (d d' : Dom) :
  same_tree d d' ->
  option_Forall2 (fun e e' => e_id e' = e_id e /\ e_parent e' = e_parent e)
    (getElement id d) (getElement id d').
Proof.
  unfold getElement, Dom. induction 1 as [|e e' d d' [Hi Hp] _ IH].
  - constructor.
  - rewrite !filter_cons, Hi. destruct (decide (e_id e = id)); simpl.
    + by constructor.
    + exact IH.
Qed.

Lemma getElement_settled id (d d' : Dom) :
  Forall2 settled d d' ->
  option_Forall2 settled (getElement id d) (getElement id d').
Proof.
  unfold getElement, Dom. induction 1 as [|e e' d d' He _ IH].
  - constructor.
  - assert (e_id e' = e_id e) as Hi by (by destruct He as [->| ->]).
    rewrite !filter_cons, Hi. destruct (decide (e_id e = id)); simpl.
    + by constructor.
    + exact IH.
Qed.

Lemma ancestors_same_tree fuel id (d d' : Dom) :
  same_tree d d' -> ancestors fuel d' id = ancestors fuel d id.
Proof.
  intros H. revert id. induction fuel as [|fuel IH]; intros id; simpl; [done|].
  destruct (getElement_same_tree id d d' H) as [e e' [Hi Hp]|]; [|done].
  rewrite Hp. destruct (e_parent e); [|done]. by rewrite IH.
Qed.

Lemma is_descendant_same_tree anc id (d d' : Dom) :
  same_tree d d' -> is_descendant d' anc id = is_descendant d anc id.
Proof.
  intros H. unfold is_descendant.
  rewrite (ancestors_same_tree _ _ d d' H).
  by rewrite (Forall2_length _ _ _ H).
Qed.

Lemma ancestors_below n fuel (d : Dom) x :
  (forall e, e ∈ d -> e_id e < n -> forall p, e_parent e = Some p -> p < n) ->
  x < n -> Forall (fun a => a < n) (ancestors fuel d x).
Proof.
  intros Hd. revert x. induction fuel as [|fuel IH]; intros x Hx; simpl; [done|].
  destruct (getElement x d) as [e|] eqn:He; [|done].
  pose proof (getElement_id _ _ _ He) as Hi.
  pose proof (getElement_elem _ _ _ He) as Hin.
  destruct (e_parent e) as [p|] eqn:Hp; [|done].
  assert (p < n) as Hlt by (apply (Hd e Hin); [lia|done]).
  constructor; [done|by apply IH].
Qed.

Lemma filter_ext_in {A} (P Q : A -> Prop) `{!forall x, Decision (P x)}
    `{!forall x, Decision (Q x)} (l : list A) :
  (forall x, x ∈ l -> P x <-> Q x) -> filter P l = filter Q l.
Proof.
  induction l as [|x l IH]; intros Hl; [done|].
  rewrite !filter_cons.
  rewrite IH by (intros y Hy; apply Hl; by right).
  destruct (decide (P x)) as [Hp|Hp].
  - rewrite decide_True; [done|]. apply Hl; [by left|done].
  - rewrite decide_False; [done|]. intros Hq. apply Hp, Hl; [by left|done].
Qed.

Lemma filter_below_same_tree n (d d' : Dom) :
  same_tree d d' ->
  e_id <$> filter (fun e => e_id e < n) d'
  = e_id <$> filter (fun e => e_id e < n) d.
Proof.
  unfold Dom. induction 1 as [|e e' d d' [Hi _] _ IH]; [done|].
  rewrite !filter_cons, Hi.
  destruct (decide (e_id e < n)); [|done]. by rewrite !fmap_cons, Hi, IH.
Qed.

(** The six nodes of a toast, put into a page whose nodes were numbered
    below [n]: the close button is the one descendant of the toast with
    class [toast-close], and the subtree is what the removal takes out
    again. *)
Section ToastNodes.
Variables (n container : nat) (d : Dom).
Variables (toastEl iconEl contentEl titleEl messageEl buttonEl : Element).
Variables (in1 in2 in3 in4 in5 in6 : Element -> bool).
Hypothesis allocated :
  Forall (fun e => e_id e < n /\ forall p, e_parent e = Some p -> p < n) d.
Hypothesis toast_id : e_id toastEl = n.
Hypothesis toast_parent : e_parent toastEl = Some container.
Hypothesis container_old : container < n.
Hypothesis icon_id : e_id iconEl = S n.
Hypothesis icon_parent : e_parent iconEl = Some n.
Hypothesis icon_classes : e_classes iconEl = ["toast-icon"].
Hypothesis content_id : e_id contentEl = S (S n).
Hypothesis content_parent : e_parent contentEl = Some n.
Hypothesis content_classes : e_classes contentEl = ["toast-content"].
Hypothesis title_id : e_id titleEl = S (S (S n)).
Hypothesis title_parent : e_parent titleEl = Some (S (S n)).
Hypothesis title_classes : e_classes titleEl = ["toast-title"].
Hypothesis message_id : e_id messageEl = S (S (S (S n))).
Hypothesis message_parent : e_parent messageEl = Some (S (S n)).
Hypothesis message_classes : e_classes messageEl = ["toast-message"].
Hypothesis button_id : e_id buttonEl = S (S (S (S (S n)))).
Hypothesis button_parent : e_parent buttonEl = Some n.
Hypothesis button_classes : e_classes buttonEl = ["toast-close"].

Local Abbreviation with_toast :=
  (insert_after_last in6 buttonEl
     (insert_after_last in5 messageEl
        (insert_after_last in4 titleEl
           (insert_after_last in3 contentEl
              (insert_after_last in2 iconEl
                 (insert_after_last in1 toastEl d)))))).

Local Abbreviation toast_parts :=
  [toastEl; iconEl; contentEl; titleEl; messageEl; buttonEl].

Lemma with_toast_elem e : e ∈ with_toast -> e ∈ toast_parts \/ e ∈ d.
Proof.
  intros H.
  repeat (apply insert_after_last_elem in H as [->|H];
          [left; by repeat first [left|right]|]).
  by right.
Qed.

Lemma with_toast_new e : e ∈ toast_parts -> e ∈ with_toast.
Proof.
  intros H.
  repeat (apply elem_of_cons in H as [->|H];
          [by repeat first [apply insert_after_last_new
                           |apply insert_after_last_old]|]).
  by apply elem_of_nil in H.
Qed.

Lemma with_toast_new_id e : e ∈ toast_parts -> n <= e_id e.
Proof.
  intros H.
  repeat (apply elem_of_cons in H as [->|H]; [lia|]).
  by apply elem_of_nil in H.
Qed.

Lemma with_toast_get e :
  e ∈ toast_parts -> getElement (e_id e) with_toast = Some e.
Proof.
  intros He. apply getElement_unique; [by apply with_toast_new|].
  intros e' [Hn|Ho]%with_toast_elem Hi.
  - repeat (apply elem_of_cons in He as [->|He];
      [repeat (apply elem_of_cons in Hn as [->|Hn]; [done || lia|]);
       by apply elem_of_nil in Hn|]).
    by apply elem_of_nil in He.
  - apply with_toast_new_id in He.
    rewrite Forall_forall in allocated. destruct (allocated e' Ho). lia.
Qed.

Lemma with_toast_root_get : getElement n with_toast = Some toastEl.
Proof. rewrite <- toast_id at 1. apply with_toast_get. by left. Qed.

Lemma with_toast_length : 6 <= length with_toast.
Proof. rewrite !insert_after_last_length. lia. Qed.

Lemma with_toast_old_parents e :
  e ∈ with_toast -> e_id e < n -> forall p, e_parent e = Some p -> p < n.
Proof.
  intros [Hn|Ho]%with_toast_elem Hlt.
  - apply with_toast_new_id in Hn. lia.
  - rewrite Forall_forall in allocated. by destruct (allocated e Ho).
Qed.

Lemma with_toast_old x : x < n -> is_descendant with_toast n x = false.
Proof.
  intros Hlt. unfold is_descendant. apply bool_decide_eq_false. intros Hin.
  pose proof (ancestors_below n (length with_toast) with_toast x
                with_toast_old_parents Hlt) as Hall.
  rewrite Forall_forall in Hall. specialize (Hall n Hin). lia.
Qed.

Lemma with_toast_root : is_descendant with_toast n n = false.
Proof.
  unfold is_descendant. apply bool_decide_eq_false. intros Hin.
  pose proof with_toast_length as Hlen.
  destruct (length with_toast) as [|fuel] eqn:Hl; [lia|].
  cbn [ancestors] in Hin. rewrite with_toast_root_get, toast_parent in Hin.
  apply elem_of_cons in Hin as [?|Hin]; [lia|].
  pose proof (ancestors_below n fuel with_toast container
                with_toast_old_parents container_old) as Hall.
  rewrite Forall_forall in Hall. specialize (Hall n Hin). lia.
Qed.

Lemma with_toast_inside e :
  e ∈ [iconEl; contentEl; titleEl; messageEl; buttonEl] ->
  is_descendant with_toast n (e_id e) = true.
Proof.
  intros He. unfold is_descendant. apply bool_decide_eq_true.
  pose proof with_toast_length as Hlen.
  destruct (length with_toast) as [|[|fuel]] eqn:Hl; [lia|lia|].
  assert (forall y, y ∈ [iconEl; contentEl; buttonEl] ->
            n ∈ ancestors (S (S fuel)) with_toast (e_id y)) as Hchild.
  { intros y Hy. cbn [ancestors]. rewrite with_toast_get.
    - repeat (apply elem_of_cons in Hy as [->|Hy];
              [rewrite ?icon_parent, ?content_parent, ?button_parent;
               by left|]).
      by apply elem_of_nil in Hy.
    - repeat (apply elem_of_cons in Hy as [->|Hy];
              [by repeat first [left|right]|]).
      by apply elem_of_nil in Hy. }
  assert (forall y, y ∈ [titleEl; messageEl] ->
            n ∈ ancestors (S (S fuel)) with_toast (e_id y)) as Hgrand.
  { intros y Hy. cbn [ancestors]. rewrite with_toast_get.
    - assert (e_parent y = Some (e_id contentEl)) as ->.
      { repeat (apply elem_of_cons in Hy as [->|Hy]; [congruence|]).
        by apply elem_of_nil in Hy. }
      right. rewrite with_toast_get, content_parent; [by left|].
      by repeat first [left|right].
    - repeat (apply elem_of_cons in Hy as [->|Hy];
              [by repeat first [left|right]|]).
      by apply elem_of_nil in Hy. }
  apply elem_of_cons in He as [->|He];
    [apply Hchild; by repeat first [left|right]|].
  apply elem_of_cons in He as [->|He];
    [apply Hchild; by repeat first [left|right]|].
  apply elem_of_cons in He as [->|He];
    [apply Hgrand; by repeat first [left|right]|].
  apply elem_of_cons in He as [->|He];
    [apply Hgrand; by repeat first [left|right]|].
  apply elem_of_cons in He as [->|He];
    [apply Hchild; by repeat first [left|right]|].
  by apply elem_of_nil in He.
Qed.

Lemma with_toast_subtree e :
  e ∈ with_toast ->
  (e_id e <> n /\ is_descendant with_toast n (e_id e) = false) <-> e_id e < n.
Proof.
  intros He. split.
  - intros [Hne Hd]. destruct (with_toast_elem e He) as [Hn|Ho].
    + apply elem_of_cons in Hn as [->|Hn]; [done|].
      by rewrite (with_toast_inside e Hn) in Hd.
    + rewrite Forall_forall in allocated. by destruct (allocated e Ho).
  - intros Hlt. split; [lia|]. by apply with_toast_old.
Qed.

Lemma with_toast_close_button :
  querySelectorIn n (SClass "toast-close") with_toast = Some (e_id buttonEl).
Proof.
  unfold querySelectorIn, querySelectorAllIn.
  assert (filter (fun e => matches (SClass "toast-close") e = true
                           ∧ is_descendant with_toast n (e_id e) = true)
            with_toast = [buttonEl]) as ->; [|done].
  set (P := fun e : Element => matches (SClass "toast-close") e = true
                               ∧ is_descendant with_toast n (e_id e) = true).
  assert (forall e, e ∈ [toastEl; iconEl; contentEl; titleEl; messageEl] ->
                    ~ P e) as Hnot.
  { intros e He [Hm Hd]. simpl in Hm. apply bool_decide_eq_true in Hm.
    apply elem_of_cons in He as [->|He].
    { rewrite toast_id in Hd. by rewrite with_toast_root in Hd. }
    repeat (apply elem_of_cons in He as [->|He];
            [rewrite ?icon_classes, ?content_classes, ?title_classes,
               ?message_classes in Hm;
             by apply list_elem_of_singleton in Hm|]).
    by apply elem_of_nil in He. }
  apply insert_after_last_only.
  - split.
    + simpl. apply bool_decide_eq_true. rewrite button_classes. by left.
    + apply with_toast_inside. by repeat first [left|right].
  - rewrite !(insert_after_last_filter P)
      by (apply Hnot; by repeat first [left|right]).
    assert (forall l : list Element,
              Forall (fun e => e_id e < n) l -> filter P l = []) as Hl.
    { induction 1 as [|e l He _ IH]; [done|].
      rewrite filter_cons_False; [done|].
      intros [_ Hd]. by rewrite (with_toast_old _ He) in Hd. }
    apply Hl. eapply Forall_impl; [exact allocated|]. by intros e [? _].
Qed.

Lemma with_toast_removed (d2 : Dom) :
  same_tree with_toast d2 ->
  present d2 n
  /\ e_id <$> filter (fun e => e_id e ≠ n
                              ∧ is_descendant d2 n (e_id e) = false) d2
     = e_id <$> d.
Proof.
  intros Htree. pose proof (same_tree_ids _ _ Htree) as Hids. split.
  - apply present_ids. rewrite Hids. apply list_elem_of_fmap.
    exists toastEl. split; [done|]. apply with_toast_new. by left.
  - assert (filter (fun e => e_id e ≠ n
                             ∧ is_descendant d2 n (e_id e) = false) d2
            = filter (fun e => e_id e < n) d2) as ->.
    { apply filter_ext_in. intros e He.
      rewrite (is_descendant_same_tree _ _ _ _ Htree).
      assert (e_id e ∈ e_id <$> with_toast) as (e0 & Hi & He0)%list_elem_of_fmap.
      { rewrite <- Hids. apply list_elem_of_fmap. by exists e. }
      rewrite Hi. by apply with_toast_subtree. }
    rewrite (filter_below_same_tree n _ _ Htree).
    rewrite !(insert_after_last_filter (fun e => e_id e < n)) by lia.
    f_equal. apply filter_all. eapply Forall_impl; [exact allocated|].
    by intros e [? _].
Qed.
End ToastNodes.

Lemma emit_returns depth name data w :
  exists w', emit (S depth) name data w = Ok VThis w' /\ bus_step False 0 w w'.
Proof.
  pose proof (bus_emit False 0 (S depth) name data w (Nat.le_0_l _)) as H.
  rewrite emit_unfold in *. eexists. split; [reflexivity|exact H].
Qed.

Lemma timer_delay_small d : (0 <= d < 2 ^ 31)%Z -> timer_delay d = d.
Proof.
  intros H. unfold timer_delay, to_long. rewrite Z.mod_small by lia. lia.
Qed.

Lemma querySelector_present s (d : Dom) id :
  querySelector s d = Some id -> exists e, e ∈ d /\ e_id e = id.
Proof.
  unfold querySelector, querySelectorAll. intros H.
  apply head_Some_elem_of in H.
  apply list_elem_of_fmap in H as (e & -> & He).
  apply list_elem_of_filter in He as [_ He]. by exists e.
Qed.

Lemma removeToast_run depth toast w :
  present (doc w) toast ->
  exists w',
    run_timer (S depth) (RemoveToast toast) w = Ok tt w'
    /\ bus_step False 0
         (set_doc (fun d => filter (fun e =>
            e_id e ≠ toast ∧ is_descendant d toast (e_id e) = false) d) w) w'.
Proof.
  intros Hp. remember (emit (S depth)) as em.
  unfold run_timer, bind, get, modify, ret.
  rewrite bool_decide_eq_true_2 by exact Hp. subst em.
  match goal with |- context [emit _ ?n ?d ?w0] =>
    destruct (emit_returns depth n d w0) as (w' & -> & F)
  end.
  by exists w'.
Qed.

(** What [showToast] has done when it dispatches its event, on a page
    whose parser reads the template as written. *)
Lemma showToast_run depth config w container :
  querySelector (SHasAttr "data-toast-container") (doc w) = Some container ->
  nodes_allocated w ->
  innerHTML_parse (host w)
    (toast_markup (toast_icon (host w) (default "info" (cfg_type config)))
       (default "undefined" (cfg_title config))
       (default "undefined" (cfg_message config)))
  = toast_nodes (toast_icon (host w) (default "info" (cfg_type config)))
      (default "undefined" (cfg_title config))
      (default "undefined" (cfg_message config)) ->
  exists w0 w',
    showToast (S depth) config w = Ok (Some (next_id w)) w'
    /\ bus_step False 0 w0 w'
    /\ getElement (next_id w) (doc w0)
       = Some (new_element (next_id w) "div" (Some container)
                 [("id", "toast-" +:+ pretty (clock (host w) (clock_reads w)));
                  ("role", "alert"); ("aria-live", "assertive")]
                 (class_tokens
                    ("toast toast-" +:+ default "info" (cfg_type config)))
                 "")
    /\ (forall d2, same_tree (doc w0) d2 ->
          present d2 (next_id w)
          /\ e_id <$> filter (fun e =>
                e_id e ≠ next_id w
                ∧ is_descendant d2 (next_id w) (e_id e) = false) d2
             = e_id <$> doc w)
    /\ timers w0
       = timers w
         ++ (if default false (cfg_persistent config) then []
             else if bool_decide (0 < default 5000 (cfg_duration config))%Z
                  then [(timer_delay (default 5000%Z (cfg_duration config)),
                         HideToast (next_id w))]
                  else []).
Proof.
  intros Hc Hall Hparse.
  assert (container < next_id w) as Hcont.
  { destruct (querySelector_present _ _ _ Hc) as (e & He & <-).
    unfold nodes_allocated in Hall. rewrite Forall_forall in Hall.
    by destruct (Hall e He). }
  unfold showToast. remember (emit (S depth)) as em eqn:Hem.
  unfold bind at 1. unfold get at 1. rewrite Hc.
  unfold set_innerHTML.
  unfold bind, Date_now, fresh, get, appendChild, modify, addEventListener, ret.
  simpl. rewrite Hparse. simpl.
  erewrite with_toast_close_button;
    [|first [exact Hall|exact Hcont|reflexivity]..].
  simpl.
  destruct (default false (cfg_persistent config));
    destruct (bool_decide (0 < default 5000 (cfg_duration config))%Z);
    simpl; unfold setTimeout, modify, ret; simpl;
    match goal with |- context [em ?n ?d ?w0] =>
      destruct (emit_returns depth n d w0) as (w1 & E & B);
      rewrite Hem, E; exists w0, w1
    end;
    (split; [reflexivity|]); (split; [exact B|]);
    (split; [simpl; eapply with_toast_root_get;
             first [exact Hall|exact Hcont|reflexivity]|]);
    (split; [intros d2 Htree; simpl in Htree;
             eapply with_toast_removed in Htree;
             [exact Htree|first [exact Hall|exact Hcont|reflexivity]..]|]);
    simpl; by rewrite ?app_nil_r.
Qed.

Lemma class_remove_absent c cs : c ∉ cs -> class_remove c cs = cs.
Proof.
  intros H. apply filter_all, Forall_forall. by intros x Hx ->.
Qed.

(** C8 (amended).  With a toast container in the page, and a title and a
    message that the HTML parser reads as the template is written (they hold
    no markup), [showToast] creates the toast with the defaults of the
    configuration applied to what is omitted (type info, duration 5000, not
    persistent) and schedules its dismissal exactly when the toast is not
    persistent and the duration is positive; the delay is the duration as
    long as that is below 2^31.  When the timer fires, [hideToast] takes the
    class [show] away and sets a second timer 300 ms later, and when that
    one fires the toast is gone and the page has the nodes it had before. *)
Theorem showToast_defaults_and_dismissal :
  forall depth config w container,
  querySelector (SHasAttr "data-toast-container") (doc w) = Some container ->
  nodes_allocated w ->
  innerHTML_parse (host w)
    (toast_markup (toast_icon (host w) (default "info" (cfg_type config)))
       (default "undefined" (cfg_title config))
       (default "undefined" (cfg_message config)))
  = toast_nodes (toast_icon (host w) (default "info" (cfg_type config)))
      (default "undefined" (cfg_title config))
      (default "undefined" (cfg_message config)) ->
  exists w',
    showToast (S depth) config w = Ok (Some (next_id w)) w'
    /\ (exists e,
          getElement (next_id w) (doc w') = Some e
          /\ e_parent e = Some container
          /\ ("active" ∉ class_tokens
                          ("toast toast-" +:+ default "info" (cfg_type config)) ->
              e_classes e
              = class_tokens
                  ("toast toast-" +:+ default "info" (cfg_type config))))
    /\ timers w'
       = timers w
         ++ (if default false (cfg_persistent config) then []
             else if bool_decide (0 < default 5000 (cfg_duration config))%Z
                  then [(timer_delay (default 5000%Z (cfg_duration config)),
                         HideToast (next_id w))]
                  else [])
    /\ ((0 <= default 5000 (cfg_duration config) < 2 ^ 31)%Z ->
        timer_delay (default 5000%Z (cfg_duration config))
        = default 5000%Z (cfg_duration config))
    /\ exists w2 w3,
         run_timer (S depth) (HideToast (next_id w)) w' = Ok tt w2
         /\ timers w2 = timers w' ++ [(300%Z, RemoveToast (next_id w))]
         /\ run_timer (S depth) (RemoveToast (next_id w)) w2 = Ok tt w3
         /\ ~ present (doc w3) (next_id w)
         /\ e_id <$> doc w3 = e_id <$> doc w.
Proof.
  intros depth config w container Hc Hall Hparse.
  destruct (showToast_run depth config w container Hc Hall Hparse)
    as (w0 & w' & E & B & G & R & T).
  exists w'. split; [exact E|]. split; [|split; [|split]].
  - pose proof (getElement_settled (next_id w) _ _ (bs_page _ _ _ _ B)) as H.
    rewrite G in H. inversion H as [e0 e He|]; subst. exists e.
    split; [done|]. destruct He as [->| ->]; [done|]. split; [done|].
    intros Hno. simpl. by apply class_remove_absent.
  - by rewrite (bs_timers _ _ _ _ B), T.
  - apply timer_delay_small.
  - set (w2 := set_timers (fun ts => ts ++ [(300%Z, RemoveToast (next_id w))])
                 (set_doc (update_element (next_id w)
                             (with_classes (class_remove "show"))) w')).
    assert (same_tree (doc w0) (doc w2)) as Htree.
    { eapply same_tree_trans; [exact (settled_same_tree _ _ (bs_page _ _ _ _ B))|].
      by apply update_same_tree. }
    destruct (R _ Htree) as [Hp Hids].
    destruct (removeToast_run depth (next_id w) w2 Hp) as (w3 & E3 & B3).
    pose proof (same_tree_ids _ _ (settled_same_tree _ _ (bs_page _ _ _ _ B3)))
      as Hids3.
    assert (e_id <$> doc w3 = e_id <$> doc w) as Hfin
        by (etrans; [exact Hids3|exact Hids]).
    exists w2, w3. split; [reflexivity|]. split; [reflexivity|].
    split; [exact E3|]. split; [|exact Hfin].
    rewrite present_ids, Hfin. intros (e & Hi & He)%list_elem_of_fmap.
    unfold nodes_allocated in Hall. rewrite Forall_forall in Hall.
    destruct (Hall e He). lia.
Qed.

Lemma toast_world_allocated : nodes_allocated toast_world.
Proof.
  unfold nodes_allocated.
  repeat (constructor; [split; [vm_compute; lia|];
                        intros p [= <-]; vm_compute; lia|]).
  constructor.
Qed.

Lemma showToast_defaults_and_dismissal_witness :
  querySelector (SHasAttr "data-toast-container") (doc toast_world) = Some 100
  /\ nodes_allocated toast_world
  /\ (exists w',
        showToast 1 no_options toast_world = Ok (Some 101) w'
        /\ (exists e, getElement 101 (doc w') = Some e
                      /\ e_classes e = ["toast"; "toast-info"])
        /\ timers w' = [(5000%Z, HideToast 101)]
        /\ exists w2 w3,
             run_timer 1 (HideToast 101) w' = Ok tt w2
             /\ run_timer 1 (RemoveToast 101) w2 = Ok tt w3
             /\ ~ present (doc w3) 101)
  /\ (exists w',
        showToast 1 sticky_options toast_world = Ok (Some 101) w'
        /\ timers w' = []).
Proof.
  assert (querySelector (SHasAttr "data-toast-container") (doc toast_world)
          = Some 100) as Hc by reflexivity.
  split; [exact Hc|]. split; [exact toast_world_allocated|]. split.
  - destruct (showToast_defaults_and_dismissal 0 no_options toast_world 100 Hc
                toast_world_allocated)
      as (w' & E & (e & He & _ & Hcl) & Ht & _ & (w2 & w3 & E2 & _ & E3 & Hg & _));
      [by vm_compute|].
    exists w'. split; [exact E|]. split; [|split; [exact Ht|]].
    + exists e. split; [exact He|]. apply Hcl.
      apply (bool_decide_unpack _). by vm_compute.
    + exists w2, w3. split; [exact E2|]. split; [exact E3|exact Hg].
  - destruct (showToast_defaults_and_dismissal 0 sticky_options toast_world 100
                Hc toast_world_allocated) as (w' & E & _ & Ht & _);
      [by vm_compute|].
    exists w'. split; [exact E|exact Ht].
Defined.

Lemma throws_with {A} (r : Result A) e :
  match r with Throw e' _ => e' = e | Ok _ _ => False end ->
  r = Throw e (world_of r).
Proof. destruct r; [done|]. by intros ->. Qed.

Lemma returns_with {A} (r : Result A) a :
  match r with Ok a' _ => a' = a | Throw _ _ => False end ->
  r = Ok a (world_of r).
Proof. destruct r; [|done]. by intros ->. Qed.

(** C8, as stated, fails.  A title that opens a comment swallows the close
    button of the template: looking the button up gives nothing, using it
    throws before any timer is set, and the toast, not persistent and with
    the default duration, stays in the page.  And a duration of 2^31 ms is
    beyond what a timer holds: the toast is dismissed at once. *)
Lemma toast_not_dismissed_after_duration :
  (exists w',
     showToast 1 comment_options toast_world = Throw close_button_error w'
     /\ present (doc w') 101
     /\ timers w' = [])
  /\ (exists w',
        showToast 1 long_options toast_world = Ok (Some 101) w'
        /\ timers w' = [(0%Z, HideToast 101)]).
Proof.
  split.
  - exists (world_of (showToast 1 comment_options toast_world)).
    split; [apply throws_with; by vm_compute|].
    split; [|by vm_compute].
    apply (bool_decide_unpack _). by vm_compute.
  - exists (world_of (showToast 1 long_options toast_world)).
    split; [apply returns_with; by vm_compute|]. by vm_compute.
Qed.
